(** * Build pipeline of the Zapier platform CLI (utils/build.js)

    A shallow embedding of the module that packages an app directory into a
    deployable zip: the dependency resolver [browserifyFiles], the directory
    scanner [listFiles], the inclusion policy and packager of [makeZip], the
    staged orchestrator [build] and the upload coordinator
    [buildAndUploadDir].

    Strings are sequences of code units; the development restricts them to
    the 8-bit range, where the order of [String.compare] is the code-unit
    order that JavaScript's default [sort] and [===] use. *)

From Stdlib Require Import Ascii String.
From stdpp Require Import base strings list sorting gmap.

(** ** JavaScript and Node built-ins used by the module *)

Module Js.

(** [a || b] on a possibly missing string argument: [undefined] and the empty
    string are falsy. *)
Definition or_default (a : option string) (b : string) : string :=
  match a with
  | Some s => if String.eqb s "" then b else s
  | None => b
  end.

(** [s.split(sep)] for a non-empty separator: scan [s] from the left; at the
    first position where [sep] matches, close the current chunk and resume
    right after the match.  [skip] counts the code units of a matched
    separator that are still to be stepped over. *)
Fixpoint split_go (sep : string) (skip : nat) (chunk s : string) : list string :=
  match s with
  | EmptyString => [chunk]
  | String c s' =>
      match skip with
      | S k => split_go sep k chunk s'
      | O =>
          if String.prefix sep s
          then chunk :: split_go sep (String.length sep - 1) "" s'
          else split_go sep 0 (chunk +:+ String c "") s'
      end
  end.

(** [String.prototype.split] with a string separator.  The empty separator
    splits into single code units (and the empty string into the empty
    array). *)
Definition split (sep s : string) : list string :=
  match sep with
  | EmptyString => (λ c, String c "") <$> String.list_ascii_of_string s
  | String _ _ => split_go sep 0 "" s
  end.

(** [Array.prototype.pop]'s return value: the last element, [None] standing
    for [undefined] on the empty array. *)
Definition pop (l : list string) : option string := last l.

(** [s.endsWith(suffix)]. *)
Definition endsWith (s suffix : string) : bool :=
  let n := String.length s in
  let m := String.length suffix in
  Nat.leb m n && String.eqb (String.substring (n - m) m s) suffix.

(** [Array.prototype.sort] without comparator, on an array of strings:
    ascending code-unit order.  The order is total and antisymmetric, so the
    sorted permutation is unique whatever algorithm the engine runs. *)
Definition sort (l : list string) : list string := merge_sort String.le l.

(** lodash's [baseUniq]: walk the array and push a value onto the result
    unless the result already holds it, so first occurrences survive, in
    order. *)
Fixpoint baseUniq (result array : list string) : list string :=
  match array with
  | [] => result
  | v :: rest =>
      if bool_decide (v ∈ result) then baseUniq result rest
      else baseUniq (result ++ [v]) rest
  end.

(** [_.uniq(array)]. *)
Definition uniq (array : list string) : list string := baseUniq [] array.

(** Backward scan of Node's POSIX [path.dirname]: [rpath] holds the code
    units at indices [i, i-1, ..., 1] (index 0 is not visited); returns the
    index of the slash that ends the directory part, if any. *)
Fixpoint dirname_scan (rpath : list ascii) (i : nat) (matchedSlash : bool) : option nat :=
  match rpath with
  | [] => None
  | c :: rest =>
      if Ascii.eqb c "/"%char
      then if matchedSlash then dirname_scan rest (i - 1) matchedSlash else Some i
      else dirname_scan rest (i - 1) false
  end.

(** Node's [path.dirname] (POSIX flavour, the scanning implementation of
    Node 6 and later; on relative paths without doubled slashes the older
    regular-expression implementation agrees with it). *)
Definition dirname (path : string) : string :=
  match path with
  | EmptyString => "."
  | String c0 rest =>
      let hasRoot := Ascii.eqb c0 "/"%char in
      match dirname_scan (reverse (String.list_ascii_of_string rest)) (String.length rest) true with
      | None => if hasRoot then "/" else "."
      | Some e => if hasRoot && Nat.eqb e 1 then "//" else String.substring 0 e path
      end
  end.

End Js.

(** Substring occurrence: [occurs b s] holds when [b] matches at some
    position of [s]. *)
Fixpoint occurs (b s : string) : bool :=
  String.prefix b s ||
  match s with
  | EmptyString => false
  | String _ s' => occurs b s'
  end.

(** ** Path helpers of the module *)

(** [const stripPath = (cwd, filePath) => filePath.split(cwd).pop();] *)
Definition stripPath (cwd filePath : string) : option string :=
  Js.pop (Js.split cwd filePath).

(** [forceIncludeDumbPath]: the always-included predicate. *)
Definition forceIncludeDumbPath (filePath : string) : bool :=
  Js.endsWith filePath "package.json" || Js.endsWith filePath "definition.json".

(** The file-set decision of [makeZip] (its second [then] callback);
    [disable] is [global.argOpts['disable-dependency-detection']]. *)
Definition finalPaths (disable : bool) (smartPaths dumbPaths : list string) : list string :=
  if disable then dumbPaths
  else
    let finalPaths := smartPaths ++ List.filter forceIncludeDumbPath dumbPaths in
    let finalPaths := Js.uniq finalPaths in
    Js.sort finalPaths.

(** ** Values, errors and the observable world *)

(** A value a promise of the upload collaborator may resolve with. *)
Inductive jsval :=
| JUndefined
| JString (s : string).

(** The collaborators the module calls into: [./files], [./misc], [./api],
    the injected bootstrap module, browserify, the directory walker and
    AdmZip. *)
Inductive collaborator :=
| CheckCredentialsC | EnsureDirC | CopyDirC | RunCommandC | ReadFileC
| WriteFileC | HandlerC | BrowserifyC | WalkC | ZipC | RemoveDirC | UploadC.

(** A rejection reason: an [Error] the module itself throws, or whatever a
    collaborator rejected with. *)
Inductive error :=
| JsError (message : string)
| External (who : collaborator) (diagnostic : string).

(** A row of browserify's [deps] pipeline: [row.file] may be missing. *)
Record Row := { row_file : option string; row_id : string }.

(** Where a failing bundle run emits its [error] event: on the bundler
    object [b], or on the stream that [b.bundle()] returns.  browserify
    reports what goes wrong during the traversal (a module that cannot be
    resolved, a file that cannot be parsed) on the stream. *)
Inductive BundleError :=
| OnBundler (diagnostic : string)
| OnStream (diagnostic : string).

(** An item reported by [fse.walk]. *)
Record Item := { item_path : string; isDirectory : bool }.

(** The control event handed to the bootstrap handler. *)
Record Event := {
  command : string;
  calledFromCli : bool;
  doNotMonkeyPatchPromises : bool
}.

(** [results] of a handler response: the error array of [validate], or the
    definition object of [definition] (kept opaque). *)
Inductive Results :=
| RArray (errors : list string)
| RObject (repr : string).

Record Response := { results : Results }.

(** One [zip.addLocalFile(localPath, zipPath)]: the local file and the
    directory it is stored under ([None] for [undefined]). *)
Definition ZipEntry : Type := string * option string.

(** The calls that reach a collaborator, in program order. *)
Inductive Call :=
| CheckCredentials
| EnsureDir (dir : string)
| CopyDir (src dst : string)
| RunCommand (cmd : string) (args : list string) (cwd : string)
| ReadFile (path : string)
| WriteFile (path content : string)
| Handler (dir : string) (event : Event)
| Bundle (entry : string)
| Walk (dir : string)
| AddLocalFile (localPath : string) (zipPath : option string)
| WriteZip (path : string)
| RemoveDir (dir : string)
| Upload (zipPath appDir : string).

(** What a run can change: the directories created through [ensureDir] and
    not yet removed, the archives written (by output path), and the log of
    collaborator calls. *)
Record World := mkWorld {
  dirs : gset string;
  archives : gmap string (list ZipEntry);
  calls : list Call
}.

(** The environment of a run: constants, ambient values, and the outcome of
    every collaborator call ([inl]/[Some] carry the diagnostic of a
    failure). *)
Record Env := {
  os_tmpdir : string;
  randomBytesHex : string;
  process_cwd : string;
  BUILD_PATH : string;
  PLATFORM_PACKAGE : string;
  path_join : string → string → string;
  disable_dependency_detection : bool;
  prettyJSONstringify : Results → string;
  checkCredentials_out : option string;
  ensureDir_out : string → option string;
  copyDir_out : string → string → option string;
  runCommand_out : string → list string → string → option string;
  readFile_out : string → string + string;
  writeFile_out : string → string → option string;
  handler_out : string → Event → string + Response;
  bundle_out : string → BundleError + list Row;
  walk_out : string → string + list Item;
  addLocalFile_out : string → option string;
  writeZip_out : string → option string;
  removeDir_out : string → option string;
  upload_out : string → string → string + jsval
}.

(** ** Promises as a state-and-error monad *)

(** How a promise ends.  [Uncaught e]: the promise is never settled, because
    [e] was thrown where no handler can catch it (out of an event emitter,
    in a later tick); the exception ends the process. *)
Inductive outcome (A : Type) :=
| Resolved (a : A)
| Rejected (e : error)
| Uncaught (e : error).
Arguments Resolved {A} a.
Arguments Rejected {A} e.
Arguments Uncaught {A} e.

Definition Promise (A : Type) : Type := World → outcome A * World.

Definition resolve {A} (a : A) : Promise A := λ w, (Resolved a, w).

Definition reject {A} (e : error) : Promise A := λ w, (Rejected e, w).

Definition uncaught {A} (e : error) : Promise A := λ w, (Uncaught e, w).

(** [p.then(k)] with no rejection handler: a rejection skips [k], and so
    does a promise that is never settled. *)
Definition then_ {A B} (p : Promise A) (k : A → Promise B) : Promise B :=
  λ w, match p w with
       | (Resolved a, w') => k a w'
       | (Rejected e, w') => (Rejected e, w')
       | (Uncaught e, w') => (Uncaught e, w')
       end.

Notation "x <~ p ;; k" := (then_ p (λ x, k))
  (at level 100, p at next level, right associativity).

(** The world after one more collaborator call. *)
Definition logged (c : Call) (w : World) : World :=
  mkWorld (dirs w) (archives w) (calls w ++ [c]).

Definition call (c : Call) : Promise unit := λ w, (Resolved tt, logged c w).

Definition settle {A} (who : collaborator) (o : string + A) : Promise A :=
  match o with
  | inl d => reject (External who d)
  | inr a => resolve a
  end.

Definition settle_unit (who : collaborator) (o : option string) : Promise unit :=
  match o with
  | Some d => reject (External who d)
  | None => resolve tt
  end.

Definition modify (f : World → World) : Promise unit :=
  λ w, (Resolved tt, f w).

(** ** Collaborators *)

(** Modelled from the spec: [checkCredentials] of [./api], ok-or-fail. *)
Definition checkCredentials (env : Env) : Promise unit :=
  _ <~ call CheckCredentials ;;
  settle_unit CheckCredentialsC (checkCredentials_out env).

(** Modelled from the spec: [upload] of [./api], ok-or-fail; a success
    resolves with whatever value the collaborator chooses. *)
Definition upload (env : Env) (zipPath appDir : string) : Promise jsval :=
  _ <~ call (Upload zipPath appDir) ;;
  settle UploadC (upload_out env zipPath appDir).

(** Modelled from the spec: [ensureDir] of [./files]; on success the
    directory exists. *)
Definition ensureDir (env : Env) (dir : string) : Promise unit :=
  _ <~ call (EnsureDir dir) ;;
  _ <~ settle_unit EnsureDirC (ensureDir_out env dir) ;;
  modify (λ w, mkWorld ({[dir]} ∪ dirs w) (archives w) (calls w)).

(** Modelled from the spec: [removeDir] of [./files]; on success the
    directory is gone. *)
Definition removeDir (env : Env) (dir : string) : Promise unit :=
  _ <~ call (RemoveDir dir) ;;
  _ <~ settle_unit RemoveDirC (removeDir_out env dir) ;;
  modify (λ w, mkWorld (dirs w ∖ {[dir]}) (archives w) (calls w)).

(** Modelled from the spec: [copyDir] of [./files]. *)
Definition copyDir (env : Env) (src dst : string) : Promise unit :=
  _ <~ call (CopyDir src dst) ;;
  settle_unit CopyDirC (copyDir_out env src dst).

(** Modelled from the spec: [readFile] of [./files]. *)
Definition readFile (env : Env) (path : string) : Promise string :=
  _ <~ call (ReadFile path) ;;
  settle ReadFileC (readFile_out env path).

(** Modelled from the spec: [writeFile] of [./files]. *)
Definition writeFile (env : Env) (path content : string) : Promise unit :=
  _ <~ call (WriteFile path content) ;;
  settle_unit WriteFileC (writeFile_out env path content).

(** Modelled from the spec: [runCommand] of [./misc]; a non-zero exit
    rejects with the captured output. *)
Definition runCommand (env : Env) (cmd : string) (args : list string) (cwd : string)
  : Promise unit :=
  _ <~ call (RunCommand cmd args cwd) ;;
  settle_unit RunCommandC (runCommand_out env cmd args cwd).

(** browserify's bundle run as [browserifyFiles] sets it up: the rows of
    the [deps] stage up to its [end] event; or an [error] event on [b], which
    has [reject] as its listener; or an [error] event on the stream that
    [b.bundle()] returns.  That stream is dropped, nothing listens on it, so
    the emitter throws the error and the promise is never settled. *)
Definition bundle (env : Env) (entry : string) : Promise (list Row) :=
  _ <~ call (Bundle entry) ;;
  match bundle_out env entry with
  | inr rows => resolve rows
  | inl (OnBundler d) => reject (External BrowserifyC d)
  | inl (OnStream d) => uncaught (External BrowserifyC d)
  end.

(** [fse.walk(dir)], drained to its items; an [error] event rejects. *)
Definition walk (env : Env) (dir : string) : Promise (list Item) :=
  _ <~ call (Walk dir) ;;
  settle WalkC (walk_out env dir).

(** [zip.addLocalFile(localPath, zipPath)] on the in-memory archive [zip];
    AdmZip throws when the local file is missing. *)
Definition addLocalFile (env : Env) (zip : list ZipEntry) (localPath : string)
  (zipPath : option string) : Promise (list ZipEntry) :=
  _ <~ call (AddLocalFile localPath zipPath) ;;
  _ <~ settle_unit ZipC (addLocalFile_out env localPath) ;;
  resolve (zip ++ [(localPath, zipPath)]).

(** [zip.writeZip(zipPath)]: the archive lands at [zipPath], overwriting. *)
Definition writeZip (env : Env) (zip : list ZipEntry) (zipPath : string) : Promise unit :=
  _ <~ call (WriteZip zipPath) ;;
  _ <~ settle_unit ZipC (writeZip_out env zipPath) ;;
  modify (λ w, mkWorld (dirs w) (<[zipPath := zip]> (archives w)) (calls w)).

(** ** The module *)

(** [row.file || row.id] *)
Definition rowPath (row : Row) : string :=
  match row_file row with
  | Some f => if String.eqb f "" then row_id row else f
  | None => row_id row
  end.

(** [paths.push(stripPath(cwd, filePath))].  [cwd] always ends in a slash,
    so the split is never empty and [pop] never yields [undefined] (lemma
    [stripPath_defined]); the [None] branch is there for totality only. *)
Definition pushStripped (cwd : string) (paths : list string) (filePath : string)
  : list string :=
  match stripPath cwd filePath with
  | Some r => paths ++ [r]
  | None => paths
  end.

Definition browserifyFiles (env : Env) (entryPoint : string) : Promise (list string) :=
  let cwd := entryPoint +:+ "/" in
  rows <~ bundle env (entryPoint +:+ "/zapierwrapper.js") ;;
  let paths := foldl (pushStripped cwd) [] (rowPath <$> rows) in
  resolve (Js.sort paths).

Definition listFiles (env : Env) (dir : string) : Promise (list string) :=
  let cwd := dir +:+ "/" in
  items <~ walk env dir ;;
  let files := List.filter (λ item, negb (isDirectory item)) items in
  let paths := foldl (pushStripped cwd) [] (item_path <$> files) in
  resolve (Js.sort paths).

(** The [paths.forEach] loop of the packager. *)
Fixpoint addAll (env : Env) (dir : string) (zip : list ZipEntry) (paths : list string)
  : Promise (list ZipEntry) :=
  match paths with
  | [] => resolve zip
  | filePath :: rest =>
      let basePath := Js.dirname filePath in
      let basePath := if String.eqb basePath "." then None else Some basePath in
      zip' <~ addLocalFile env zip (path_join env dir filePath) basePath ;;
      addAll env dir zip' rest
  end.

(** The last [then] callback of [makeZip]: the archive packager. *)
Definition pack (env : Env) (dir zipPath : string) (paths : list string) : Promise unit :=
  zip <~ addAll env dir [] paths ;;
  writeZip env zip zipPath.

Definition makeZip (env : Env) (dir zipPath : string) : Promise unit :=
  smartPaths <~ browserifyFiles env dir ;;
  dumbPaths <~ listFiles env dir ;;
  paths <~ resolve (finalPaths (disable_dependency_detection env) smartPaths dumbPaths) ;;
  pack env dir zipPath paths.

Definition _appCommandZapierWrapper (env : Env) (dir : string) (cmd : string)
  : Promise Response :=
  let event := {| command := cmd; calledFromCli := true;
                  doNotMonkeyPatchPromises := true |} in
  _ <~ call (Handler dir event) ;;
  settle HandlerC (handler_out env dir event).

Definition validation_message : string :=
  "We hit some validation errors, try running `zapier validate` to see them!".

(** [path.join(os.tmpdir(), 'zapier-' + crypto.randomBytes(4).toString('hex'))] *)
Definition tmpDirOf (env : Env) : string :=
  path_join env (os_tmpdir env) ("zapier-" +:+ randomBytesHex env).

(** The chain of [build] is cut into named runs of links; [then] is
    associative, so the cuts do not change what the chain does.  The progress
    lines ([printStarting], [printDone]) only write to the terminal and are
    left out. *)

(** Stages 1 to 3: isolate, install, inject the bootstrap module. *)
Definition prepare (env : Env) (wdir tmpDir : string) : Promise unit :=
  _ <~ ensureDir env tmpDir ;;
  _ <~ copyDir env wdir tmpDir ;;
  _ <~ runCommand env "npm" ["install"; "--production"] tmpDir ;;
  zapierWrapperBuf <~ readFile env
    (tmpDir +:+ "/node_modules/" +:+ PLATFORM_PACKAGE env +:+ "/include/zapierwrapper.js") ;;
  writeFile env (tmpDir +:+ "/zapierwrapper.js") zapierWrapperBuf.

(** Stage 4: the in-process validation call and the gate on its result
    ([if (errors.length) throw ...]): an empty array passes, and so does a
    result without a [length]. *)
Definition validate (env : Env) (tmpDir : string) : Promise unit :=
  resp <~ _appCommandZapierWrapper env tmpDir "validate" ;;
  match results resp with
  | RArray (_ :: _) => reject (JsError validation_message)
  | _ => resolve tt
  end.

(** Stages 5 and 6: write the definition, normalise the timestamps. *)
Definition extract (env : Env) (tmpDir : string) : Promise unit :=
  rawDefinition <~ _appCommandZapierWrapper env tmpDir "definition" ;;
  _ <~ writeFile env (tmpDir +:+ "/definition.json")
         (prettyJSONstringify env (results rawDefinition)) ;;
  runCommand env "find" ["."; "-exec"; "touch"; "-t"; "201601010000"; "{}"; "+"] tmpDir.

Definition stages_1_6 (env : Env) (wdir tmpDir : string) : Promise unit :=
  _ <~ prepare env wdir tmpDir ;;
  _ <~ validate env tmpDir ;;
  extract env tmpDir.

Definition build (env : Env) (zipPath wdir : option string) : Promise string :=
  let wdir := Js.or_default wdir (process_cwd env) in
  let zipPath := Js.or_default zipPath (BUILD_PATH env) in
  let tmpDir := tmpDirOf env in
  _ <~ stages_1_6 env wdir tmpDir ;;
  _ <~ makeZip env tmpDir (wdir +:+ "/" +:+ zipPath) ;;
  _ <~ removeDir env tmpDir ;;
  resolve zipPath.

Definition buildAndUploadDir (env : Env) (zipPath appDir : option string) : Promise jsval :=
  let zipPath := Js.or_default zipPath (BUILD_PATH env) in
  let appDir := Js.or_default appDir "." in
  _ <~ checkCredentials env ;;
  _ <~ build env (Some zipPath) (Some appDir) ;;
  upload env zipPath appDir.

(** ** Vocabulary of the specification *)


(** The files reachable from [entry] through static imports; [imports f]
    lists the files that [f] imports, each import already resolved to the
    existing file it names. *)
Inductive reachable (imports : string → list string) (entry : string) : string → Prop :=
| reach_entry : reachable imports entry entry
| reach_import f g :
    reachable imports entry f → g ∈ imports f → reachable imports entry g.

(** What browserify's traversal delivers on such a module graph: one row per
    reachable file, however many import paths lead to it. *)
Definition reports_closure (imports : string → list string) (entry : string)
  (rows : list Row) : Prop :=
  NoDup (rowPath <$> rows) ∧
  ∀ f, f ∈ rowPath <$> rows ↔ reachable imports entry f.

(** The message a rejection shows to the user ([err.message]). *)
Definition message_of (e : error) : string :=
  match e with
  | JsError m => m
  | External _ d => d
  end.

(** A message lists each reported problem when every problem occurs in it. *)
Definition lists_each (message : string) (problems : list string) : Prop :=
  ∀ problem, problem ∈ problems → occurs problem message = true.

(** The calls of the archiving stage. *)
Definition archiving_call (c : Call) : bool :=
  match c with
  | Bundle _ | Walk _ | AddLocalFile _ _ | WriteZip _ => true
  | _ => false
  end.

(** The calls of stages 1 to 6. *)
Definition early_call (c : Call) : bool :=
  match c with
  | EnsureDir _ | CopyDir _ _ | RunCommand _ _ _ | ReadFile _ | WriteFile _ _
  | Handler _ _ => true
  | _ => false
  end.

(** [w'] is [w] with more calls logged, each satisfying [P]. *)
Definition appends (P : Call → Prop) (w w' : World) : Prop :=
  ∃ new, calls w' = calls w ++ new ∧ Forall P new.

(** The event [build] validates with, as the handler receives it. *)
Definition validateEvent : Event :=
  {| command := "validate"; calledFromCli := true; doNotMonkeyPatchPromises := true |}.

(** The entry the packager makes for a path. *)
Definition entryFor (env : Env) (dir filePath : string) : ZipEntry :=
  (path_join env dir filePath,
   if String.eqb (Js.dirname filePath) "." then None else Some (Js.dirname filePath)).

(** ** Concrete runs *)

Definition world0 : World := mkWorld ∅ ∅ [].

Definition row (f : string) : Row := {| row_file := Some f; row_id := f |}.

Definition file (p : string) : Item := {| item_path := p; isDirectory := false |}.

Definition directory (p : string) : Item := {| item_path := p; isDirectory := true |}.

(** A run on a machine whose temporary directory is [/tmp] and whose random
    suffix comes out as [0a1b2c3d]; the arguments set how the installation,
    the validation, the traversal, the credential check and the upload turn
    out, and the global switch. *)
Definition scenario (install : option string) (validation : list string)
  (traversal : BundleError + list Row) (scan : list Item) (disable : bool)
  (credentials : option string) (uploaded : string + jsval) : Env := {|
  os_tmpdir := "/tmp";
  randomBytesHex := "0a1b2c3d";
  process_cwd := "/home/me/app";
  BUILD_PATH := "build/build.zip";
  PLATFORM_PACKAGE := "zapier-platform-core";
  path_join := λ a b, a +:+ "/" +:+ b;
  disable_dependency_detection := disable;
  prettyJSONstringify := λ r, match r with RArray _ => "[]" | RObject s => s end;
  checkCredentials_out := credentials;
  ensureDir_out := λ _, None;
  copyDir_out := λ _ _, None;
  runCommand_out := λ cmd _ _, if String.eqb cmd "npm" then install else None;
  readFile_out := λ _, inr "module.exports = {};";
  writeFile_out := λ _ _, None;
  handler_out := λ _ ev,
    if String.eqb (command ev) "validate" then inr {| results := RArray validation |}
    else inr {| results := RObject "{}" |};
  bundle_out := λ _, traversal;
  walk_out := λ _, inr scan;
  addLocalFile_out := λ _, None;
  writeZip_out := λ _, None;
  removeDir_out := λ _, None;
  upload_out := λ _ _, uploaded
|}.

(** A small project: the bootstrap wrapper requires [index.js], which
    requires [lib/a.js]. *)
Definition demo_rows : list Row := [
  row "/tmp/zapier-0a1b2c3d/zapierwrapper.js";
  row "/tmp/zapier-0a1b2c3d/index.js";
  row "/tmp/zapier-0a1b2c3d/lib/a.js" ].

Definition demo_scan : list Item := [
  directory "/tmp/zapier-0a1b2c3d";
  file "/tmp/zapier-0a1b2c3d/README.md";
  file "/tmp/zapier-0a1b2c3d/definition.json";
  file "/tmp/zapier-0a1b2c3d/index.js";
  directory "/tmp/zapier-0a1b2c3d/lib";
  file "/tmp/zapier-0a1b2c3d/lib/a.js";
  file "/tmp/zapier-0a1b2c3d/package.json";
  file "/tmp/zapier-0a1b2c3d/zapierwrapper.js" ].

(** Everything succeeds. *)
Definition demo : Env :=
  scenario None [] (inr demo_rows) demo_scan false None (inr JUndefined).

(** [npm install --production] exits non-zero. *)
Definition install_fails : Env :=
  scenario (Some "npm ERR! code E404") [] (inr demo_rows) demo_scan false None
    (inr JUndefined).

(** The app reports one validation problem. *)
Definition invalid_app : Env :=
  scenario None ["Missing title"] (inr demo_rows) demo_scan false None
    (inr JUndefined).



(** No credentials are stored. *)
Definition logged_out : Env :=
  scenario None [] (inr demo_rows) demo_scan false (Some "Please run `zapier login`.")
    (inr JUndefined).

(** A project that holds, below [vendor/], a path that repeats the working
    directory's own path: the wrapper imports [./index.js] and
    [./vendor/tmp/zapier-0a1b2c3d/index.js]. *)
Definition nested_imports (f : string) : list string :=
  if String.eqb f "/tmp/zapier-0a1b2c3d/zapierwrapper.js"
  then ["/tmp/zapier-0a1b2c3d/index.js";
        "/tmp/zapier-0a1b2c3d/vendor/tmp/zapier-0a1b2c3d/index.js"]
  else [].

Definition nested_rows : list Row := [
  row "/tmp/zapier-0a1b2c3d/zapierwrapper.js";
  row "/tmp/zapier-0a1b2c3d/index.js";
  row "/tmp/zapier-0a1b2c3d/vendor/tmp/zapier-0a1b2c3d/index.js" ].

Definition nested : Env :=
  scenario None [] (inr nested_rows) demo_scan false None (inr JUndefined).

(** ** Further vocabulary *)

(** No match of [sep] begins inside [chunk] when [chunk] is followed by
    [s]. *)
Fixpoint nomatch (sep chunk s : string) : bool :=
  match chunk with
  | EmptyString => true
  | String _ chunk' => negb (String.prefix sep (chunk +:+ s)) && nomatch sep chunk' s
  end.

(** The event [build] extracts the definition with. *)
Definition definitionEvent : Event :=
  {| command := "definition"; calledFromCli := true; doNotMonkeyPatchPromises := true |}.

(** A call that is not a handler invocation, or one that [build] may make:
    in the working directory, flagged as coming from the CLI, with promise
    patching off, for one of the two commands. *)
Definition handler_call_ok (tmpDir : string) (c : Call) : Prop :=
  match c with
  | Handler dir ev =>
      dir = tmpDir ∧ calledFromCli ev = true ∧ doNotMonkeyPatchPromises ev = true ∧
      (command ev = "validate" ∨ command ev = "definition")
  | _ => True
  end.

(** A run in which AdmZip does not find the local file [missing]. *)
Definition scenario_missing_file (missing : string) : Env := {|
  os_tmpdir := "/tmp";
  randomBytesHex := "0a1b2c3d";
  process_cwd := "/home/me/app";
  BUILD_PATH := "build/build.zip";
  PLATFORM_PACKAGE := "zapier-platform-core";
  path_join := λ a b, a +:+ "/" +:+ b;
  disable_dependency_detection := false;
  prettyJSONstringify := λ r, match r with RArray _ => "[]" | RObject s => s end;
  checkCredentials_out := None;
  ensureDir_out := λ _, None;
  copyDir_out := λ _ _, None;
  runCommand_out := λ _ _ _, None;
  readFile_out := λ _, inr "module.exports = {};";
  writeFile_out := λ _ _, None;
  handler_out := λ _ ev,
    if String.eqb (command ev) "validate" then inr {| results := RArray [] |}
    else inr {| results := RObject "{}" |};
  bundle_out := λ _, inr demo_rows;
  walk_out := λ _, inr demo_scan;
  addLocalFile_out := λ localPath,
    if String.eqb localPath missing then Some ("File not found: " +:+ missing) else None;
  writeZip_out := λ _, None;
  removeDir_out := λ _, None;
  upload_out := λ _ _, inr JUndefined
|}.

(** ** The command-line entry point (entry.js) *)

Module Cli.

(** A parsed option value: a boolean flag or a string. *)
Inductive optval :=
| OBool (b : bool)
| OString (s : string).

(** JavaScript truthiness of [argOpts.name]; a missing key is [undefined]. *)
Definition truthy (v : option optval) : bool :=
  match v with
  | Some (OBool b) => b
  | Some (OString s) => negb (String.eqb s "")
  | None => false
  end.

(** An error a command rejects with. *)
Record JsErr := { message : string; stack : string }.

(** A command function of [./commands] with the specs attached to it;
    [run args] is how [commandFunc.apply(commands, [context].concat(args))]
    settles: [None] when it resolves, [Some err] when it rejects. *)
Record Command := {
  argsSpec : list string;
  argOptsSpec : gmap string string;
  run : list string → option JsErr
}.

(** What the entry point does that can be observed, in order. *)
Inductive Output :=
| OnExitClearSpinner
| ConsoleError (text : string)
| ConsoleLog (parts : list string)
| ConsoleLogArgv (argv : list string)
| CreateContext (command : string) (args : list string)
| Line (text : string)
| ClearSpinner
| Invoke (command : string) (args : list string).

(** How the call ends: [process.exit], a plain return with nothing pending,
    or a command promise that settled; a rejection is rethrown by the catch
    handler and nothing handles it. *)
Inductive Ending :=
| Exited (code : nat)
| Returned
| Settled (unhandled : option JsErr).

(** The surroundings of the entry point: constants, the process, and the
    helpers of [./utils], [./commands] and [colors/safe], none of which is
    part of this file. *)
Record Env := {
  DEBUG : bool;
  MIN_NODE_VERSION : string * string * string;
  node_version : string;
  process_cwd : string;
  isValidNodeVersion : bool;
  argParse : list string → list string * gmap string optval;
  commands : string → option Command;
  globalArgOptsSpec : gmap string string;
  enforceArgSpec :
    list string → gmap string string → list string → gmap string optval → list string;
  red : string → string;
  grey : string → string
}.

Record Run := {
  output : list Output;
  globalArgOpts : option (gmap string optval);
  ending : Ending
}.

Definition nl : string := String (ascii_of_nat 10) "".

(** [utils.argParse(argv.slice(2))] *)
Definition parsed (env : Env) (argv : list string) : list string * gmap string optval :=
  argParse env (drop 2 argv).

(** The command and its arguments after the help swap: [zapier invitees
    --help] becomes [zapier help invitees].  [args[0]] of an empty array
    would be [undefined]. *)
Definition routed (env : Env) (argv : list string) : string * list string :=
  let '(args, argOpts) := parsed env argv in
  let args :=
    if truthy (argOpts !! "help") || Nat.eqb (length args) 0
    then "help" :: args else args in
  (match args with c :: _ => c | [] => "undefined" end, drop 1 args).

Definition failureLines (env : Env) (debug : bool) (err : JsErr) : list Output :=
  if debug
  then [Line ""; Line (stack err); Line ""; Line (red env "Error!")]
  else [Line ""; Line "";
        Line (red env "Error!" +:+ " " +:+ red env (message err));
        Line (grey env "(Use --debug flag and run this command again to get more details.)")].

Definition entry (env : Env) (argv : list string) : Run :=
  if negb (isValidNodeVersion env) then
    {| output :=
         [OnExitClearSpinner;
          ConsoleError ("Requires node version >= " +:+ (MIN_NODE_VERSION env).1.1 +:+ "."
                          +:+ (MIN_NODE_VERSION env).1.2 +:+ "."
                          +:+ (MIN_NODE_VERSION env).2 +:+ ", found "
                          +:+ node_version env +:+ ". Please upgrade node.")];
       globalArgOpts := None;
       ending := Exited 1 |}
  else
    let debugOut :=
      if DEBUG env
      then [ConsoleLog ["running in:"; process_cwd env];
            ConsoleLogArgv argv;
            ConsoleLog [nl +:+ "--------------------------------------------------"
                           +:+ nl +:+ nl]]
      else [] in
    let argOpts := (parsed env argv).2 in
    let '(command, args) := routed env argv in
    let before := [OnExitClearSpinner] ++ debugOut ++ [CreateContext command args] in
    match commands env command with
    | None =>
        {| output :=
             before ++ [Line (command +:+ " not a command! Try running `zapier help`?")];
           globalArgOpts := Some argOpts;
           ending := Returned |}
    | Some commandFunc =>
        let errors :=
          enforceArgSpec env (argsSpec commandFunc)
            (argOptsSpec commandFunc ∪ globalArgOptsSpec env) args argOpts in
        match errors with
        | _ :: _ =>
            {| output :=
                 before ++ ((λ error, Line (" " +:+ red env error)) <$> errors)
                        ++ [Line (grey env (nl +:+ "Adjust your command and try again!"))];
               globalArgOpts := Some argOpts;
               ending := Returned |}
        | [] =>
            match run commandFunc args with
            | None =>
                {| output := before ++ [Invoke command args; ClearSpinner; Line ""];
                   globalArgOpts := Some argOpts;
                   ending := Settled None |}
            | Some err =>
                {| output :=
                     before ++ [Invoke command args; ClearSpinner]
                            ++ failureLines env (DEBUG env || truthy (argOpts !! "debug")) err;
                   globalArgOpts := Some argOpts;
                   ending := Settled (Some err) |}
            end
        end
    end.

(** A command line interface with three commands; [build] fails. *)
Definition sample : Env := {|
  DEBUG := false;
  MIN_NODE_VERSION := ("4", "3", "0");
  node_version := "6.10.2";
  process_cwd := "/home/me/app";
  isValidNodeVersion := true;
  argParse := λ argv,
    (List.filter (λ a, negb (String.prefix "--" a)) argv,
     list_to_map ((λ a, (String.substring 2 (String.length a - 2) a, OBool true))
                    <$> List.filter (String.prefix "--") argv));
  commands := λ name,
    if String.eqb name "help" then
      Some {| argsSpec := []; argOptsSpec := ∅; run := λ _, None |}
    else if String.eqb name "validate" then
      Some {| argsSpec := []; argOptsSpec := ∅; run := λ _, None |}
    else if String.eqb name "build" then
      Some {| argsSpec := []; argOptsSpec := ∅;
              run := λ _, Some {| message := "npm ERR! code E404";
                                  stack := "Error: npm ERR! code E404 at build.js" |} |}
    else None;
  globalArgOptsSpec := ∅;
  enforceArgSpec := λ _ _ _ _, [];
  red := λ s, "<red>" +:+ s +:+ "</red>";
  grey := λ s, "<grey>" +:+ s +:+ "</grey>"
|}.

End Cli.

(** Everything succeeds except the removal of the working directory. *)
Definition cleanup_fails : Env := {|
  os_tmpdir := "/tmp";
  randomBytesHex := "0a1b2c3d";
  process_cwd := "/home/me/app";
  BUILD_PATH := "build/build.zip";
  PLATFORM_PACKAGE := "zapier-platform-core";
  path_join := λ a b, a +:+ "/" +:+ b;
  disable_dependency_detection := false;
  prettyJSONstringify := λ r, match r with RArray _ => "[]" | RObject s => s end;
  checkCredentials_out := None;
  ensureDir_out := λ _, None;
  copyDir_out := λ _ _, None;
  runCommand_out := λ _ _ _, None;
  readFile_out := λ _, inr "module.exports = {};";
  writeFile_out := λ _ _, None;
  handler_out := λ _ ev,
    if String.eqb (command ev) "validate" then inr {| results := RArray [] |}
    else inr {| results := RObject "{}" |};
  bundle_out := λ _, inr demo_rows;
  walk_out := λ _, inr demo_scan;
  addLocalFile_out := λ _, None;
  writeZip_out := λ _, None;
  removeDir_out := λ _, Some "EBUSY: resource busy";
  upload_out := λ _ _, inr JUndefined
|}.

(** * Properties *)

#[local] Arguments String.append !s1 s2 : simpl nomatch.

(** ** The model on concrete inputs *)

Example split_nested :
  Js.split "/app/" "/app/x/app/y.js" = [""; "x"; "y.js"].
Proof. reflexivity. Qed.

Example split_trailing : Js.split "/" "ab/" = ["ab"; ""].
Proof. reflexivity. Qed.

Example split_empty_separator : Js.split "" "abc" = ["a"; "b"; "c"].
Proof. reflexivity. Qed.

Example split_absent : Js.split "a" "" = [""].
Proof. reflexivity. Qed.

Example stripPath_private :
  stripPath "/var/folders/zapier-1/" "/private/var/folders/zapier-1/lib/a.js"
    = Some "lib/a.js".
Proof. reflexivity. Qed.

Example dirname_cases :
  Js.dirname <$> ["index.js"; "lib/a.js"; "node_modules/x/index.js"; "./a"; "a/";
                  "/a"; "/a/b"; "//a"; ""]
    = ["."; "lib"; "node_modules/x"; "."; "."; "/"; "/a"; "//"; "."].
Proof. reflexivity. Qed.

Example sort_code_units :
  Js.sort ["b"; "a"; "B"; "ab"; ""; "a"] = [""; "B"; "a"; "a"; "ab"; "b"].
Proof. reflexivity. Qed.

Example uniq_keeps_first : Js.uniq ["b"; "a"; "b"; "c"; "a"] = ["b"; "a"; "c"].
Proof. reflexivity. Qed.

Example forceInclude_cases :
  forceIncludeDumbPath <$> ["package.json"; "node_modules/x/package.json";
                            "definition.json"; "README.md"; "package.json.bak";
                            "my-package.json"]
    = [true; true; true; false; false; true].
Proof. reflexivity. Qed.

Example demo_build :
  (build demo None None world0).1 = Resolved "build/build.zip" ∧
  archives (build demo None None world0).2 !! "/home/me/app/build/build.zip"
    = Some [("/tmp/zapier-0a1b2c3d/definition.json", None);
            ("/tmp/zapier-0a1b2c3d/index.js", None);
            ("/tmp/zapier-0a1b2c3d/lib/a.js", Some "lib");
            ("/tmp/zapier-0a1b2c3d/package.json", None);
            ("/tmp/zapier-0a1b2c3d/zapierwrapper.js", None)].
Proof. split; by vm_compute. Qed.

Example logged_out_run :
  buildAndUploadDir logged_out None None world0
    = (Rejected (External CheckCredentialsC "Please run `zapier login`."),
       logged CheckCredentials world0).
Proof. reflexivity. Qed.

(** ** Strings *)

Lemma app_empty_r (s : string) : s +:+ "" = s.
Proof. induction s as [|c s IH]; simpl; [done | by rewrite IH]. Qed.

Lemma app_assoc_str (a b c : string) : (a +:+ b) +:+ c = a +:+ (b +:+ c).
Proof. induction a as [|x a IH]; simpl; [done | by rewrite IH]. Qed.

Lemma length_app_str (a b : string) :
  String.length (a +:+ b) = String.length a + String.length b.
Proof. induction a as [|x a IH]; simpl; [done | by rewrite IH]. Qed.

Lemma prefix_app (b r : string) : String.prefix b (b +:+ r) = true.
Proof.
  induction b as [|c b IH]; simpl; [by destruct r |].
  destruct (ascii_dec c c); [exact IH | congruence].
Qed.

Lemma prefix_inv (b s : string) :
  String.prefix b s = true → ∃ v, s = b +:+ v.
Proof.
  revert s. induction b as [|c b IH]; intros s H.
  - by exists s.
  - destruct s as [|d s]; simpl in H; [done |].
    destruct (ascii_dec c d) as [->|]; [| done].
    destruct (IH _ H) as [v ->]. by exists v.
Qed.

Lemma substring_all (s : string) : String.substring 0 (String.length s) s = s.
Proof. induction s as [|c s IH]; simpl; [done | by rewrite IH]. Qed.

Lemma substring_app_drop (d s : string) :
  String.substring (String.length d) (String.length s) (d +:+ s) = s.
Proof. induction d as [|c d IH]; simpl; [apply substring_all | exact IH]. Qed.

Lemma endsWith_app (d s : string) : Js.endsWith (d +:+ s) s = true.
Proof.
  unfold Js.endsWith. rewrite length_app_str.
  replace (String.length d + String.length s - String.length s)
    with (String.length d) by lia.
  rewrite substring_app_drop, String.eqb_refl, andb_true_r.
  apply Nat.leb_le. lia.
Qed.


Lemma occurs_prefix (b s : string) : String.prefix b s = true → occurs b s = true.
Proof. intros H. destruct s; cbn [occurs]; by rewrite H. Qed.

(** [occurs] is substring occurrence. *)
Lemma occurs_spec (b s : string) :
  occurs b s = true ↔ ∃ u v, s = u +:+ b +:+ v.
Proof.
  split.
  - induction s as [|c s IH]; intros H; cbn [occurs] in H.
    + rewrite orb_false_r in H. destruct (prefix_inv _ _ H) as [v ->].
      by exists "", v.
    + apply orb_true_iff in H as [H|H].
      * destruct (prefix_inv _ _ H) as [v ->]. by exists "", v.
      * destruct (IH H) as (u & v & ->). by exists (String c u), v.
  - intros (u & v & ->). induction u as [|c u IH].
    + change ("" +:+ b +:+ v) with (b +:+ v). apply occurs_prefix, prefix_app.
    + change (String c u +:+ b +:+ v) with (String c (u +:+ b +:+ v)).
      cbn [occurs]. rewrite IH. apply orb_true_r.
Qed.

Lemma occurs_empty (s : string) : occurs "" s = true.
Proof. destruct s; done. Qed.

(** ** [split] and [stripPath] *)

Lemma split_go_skip (sep x chunk s : string) :
  Js.split_go sep (String.length x) chunk (x +:+ s) = Js.split_go sep 0 chunk s.
Proof. induction x as [|c x IH]; simpl; [done | exact IH]. Qed.

Lemma split_go_no_occurrence (sep chunk s : string) :
  occurs sep s = false → Js.split_go sep 0 chunk s = [chunk +:+ s].
Proof.
  revert chunk. induction s as [|c s IH]; intros chunk H;
    cbn [Js.split_go occurs] in *.
  - by rewrite app_empty_r.
  - apply orb_false_iff in H as [Hp Ho]. rewrite Hp, (IH _ Ho).
    by rewrite app_assoc_str.
Qed.

Lemma split_go_nonempty (sep : string) (skip : nat) (chunk s : string) :
  Js.split_go sep skip chunk s ≠ [].
Proof.
  revert skip chunk. induction s as [|c s IH]; intros skip chunk; [done |].
  cbn [Js.split_go]. destruct skip; [| apply IH].
  destruct (String.prefix sep (String c s)); [done | apply IH].
Qed.

(** With a non-empty separator the split has at least one piece, so [pop]
    is never [undefined]. *)
Lemma stripPath_defined (cwd filePath : string) :
  cwd ≠ "" → is_Some (stripPath cwd filePath).
Proof.
  intros Hne. unfold stripPath, Js.pop, Js.split.
  destruct cwd as [|c cwd]; [done |].
  apply last_is_Some, split_go_nonempty.
Qed.

Lemma stripPath_prefixed (b r : string) :
  occurs b r = false → stripPath b (b +:+ r) = Some r.
Proof.
  intros H. destruct b as [|c b]; [by rewrite occurs_empty in H |].
  unfold stripPath, Js.pop, Js.split.
  change (String c b +:+ r) with (String c (b +:+ r)).
  cbn [Js.split_go]. change (String c (b +:+ r)) with (String c b +:+ r).
  rewrite prefix_app. cbn [String.length].
  replace (S (String.length b) - 1) with (String.length b) by lia.
  rewrite split_go_skip, (split_go_no_occurrence _ _ _ H). done.
Qed.

Lemma stripPath_unprefixed (b p : string) :
  occurs b p = false → stripPath b p = Some p.
Proof.
  intros H. destruct b as [|c b]; [by rewrite occurs_empty in H |].
  unfold stripPath, Js.pop, Js.split.
  by rewrite (split_go_no_occurrence _ _ _ H).
Qed.

(** ** [_.uniq] and [sort] *)

Lemma baseUniq_elem (result l : list string) (x : string) :
  x ∈ Js.baseUniq result l ↔ x ∈ result ∨ x ∈ l.
Proof.
  revert result. induction l as [|v l IH]; intros result; simpl.
  - rewrite elem_of_nil. tauto.
  - case_bool_decide as Hv; rewrite IH.
    + rewrite elem_of_cons. split; [tauto |]. intros [?|[->|?]]; tauto.
    + rewrite elem_of_app, list_elem_of_singleton, elem_of_cons. tauto.
Qed.

Lemma baseUniq_NoDup (result l : list string) :
  NoDup result → NoDup (Js.baseUniq result l).
Proof.
  revert result. induction l as [|v l IH]; intros result Hnd; simpl; [done |].
  case_bool_decide as Hv; apply IH; [done |].
  apply NoDup_app. split_and!; [done | | apply NoDup_singleton].
  intros x Hx ->%list_elem_of_singleton. done.
Qed.

Lemma uniq_elem (l : list string) (x : string) : x ∈ Js.uniq l ↔ x ∈ l.
Proof. unfold Js.uniq. rewrite baseUniq_elem, elem_of_nil. tauto. Qed.

Lemma uniq_NoDup (l : list string) : NoDup (Js.uniq l).
Proof. apply baseUniq_NoDup, NoDup_nil_2. Qed.

Lemma sort_Permutation (l : list string) : Js.sort l ≡ₚ l.
Proof. apply merge_sort_Permutation. Qed.

Lemma sort_elem (l : list string) (x : string) : x ∈ Js.sort l ↔ x ∈ l.
Proof. by rewrite sort_Permutation. Qed.

Lemma sort_Sorted (l : list string) : Sorted String.le (Js.sort l).
Proof. apply Sorted_merge_sort, _. Qed.

Lemma sort_NoDup (l : list string) : NoDup l → NoDup (Js.sort l).
Proof. by rewrite sort_Permutation. Qed.

(** A sorted list is a fixed point of [sort]. *)
Lemma sort_sorted_id (l : list string) : Sorted String.le l → Js.sort l = l.
Proof.
  intros Hl. apply (Sorted_unique String.le); [apply sort_Sorted | done |].
  apply sort_Permutation.
Qed.

(** ** The inclusion policy *)

Lemma finalPaths_elem (smart dumb : list string) (p : string) :
  p ∈ finalPaths false smart dumb ↔
  p ∈ smart ∨ (p ∈ dumb ∧ forceIncludeDumbPath p = true).
Proof.
  unfold finalPaths.
  rewrite sort_elem, uniq_elem, elem_of_app, !list_elem_of_In, filter_In.
  done.
Qed.


(** ** Claims on the inclusion policy *)

(** [makeZip] hands the packager the list [finalPaths] selects from what the
    resolver and the scanner returned. *)
Lemma makeZip_selects (env : Env) (dir zipPath : string) (w w1 w2 : World)
  (smartPaths dumbPaths : list string) :
  browserifyFiles env dir w = (Resolved smartPaths, w1) →
  listFiles env dir w1 = (Resolved dumbPaths, w2) →
  makeZip env dir zipPath w
    = pack env dir zipPath
        (finalPaths (disable_dependency_detection env) smartPaths dumbPaths) w2.
Proof.
  intros Hsmart Hdumb. unfold makeZip, then_ at 1 2 3.
  by rewrite Hsmart, Hdumb.
Qed.

(** C3: the list [makeZip] hands to the packager is, under SmartDetection,
    the resolver's list united with exactly the scanned paths that satisfy
    the always-included predicate, without duplicates and sorted ascending;
    under IncludeAll it is the full scan; on the README/index/package
    example it is [index.js; package.json]. *)
Theorem C3_final_inclusion_set (env : Env) (dir zipPath : string) (w w1 w2 : World)
  (smartPaths dumbPaths : list string) :
  browserifyFiles env dir w = (Resolved smartPaths, w1) →
  listFiles env dir w1 = (Resolved dumbPaths, w2) →
  ∃ paths,
    makeZip env dir zipPath w = pack env dir zipPath paths w2 ∧
    (disable_dependency_detection env = true → paths = dumbPaths) ∧
    (disable_dependency_detection env = false →
       Sorted String.le paths ∧ NoDup paths ∧
       ∀ p, p ∈ paths ↔
            p ∈ smartPaths ∨ (p ∈ dumbPaths ∧ forceIncludeDumbPath p = true)) ∧
    finalPaths false ["index.js"] ["README.md"; "index.js"; "package.json"]
      = ["index.js"; "package.json"].
Proof.
  intros Hsmart Hdumb.
  exists (finalPaths (disable_dependency_detection env) smartPaths dumbPaths).
  split_and!.
  - by apply makeZip_selects with w1.
  - by intros ->.
  - intros ->. split_and!.
    + apply sort_Sorted.
    + apply sort_NoDup, uniq_NoDup.
    + apply finalPaths_elem.
  - by vm_compute.
Qed.

Lemma C3_final_inclusion_set_witness :
  ∃ paths,
    makeZip demo "/tmp/zapier-0a1b2c3d" "/home/me/app/build/build.zip" world0
      = pack demo "/tmp/zapier-0a1b2c3d" "/home/me/app/build/build.zip" paths
          (logged (Walk "/tmp/zapier-0a1b2c3d")
             (logged (Bundle "/tmp/zapier-0a1b2c3d/zapierwrapper.js") world0)) ∧
    "package.json" ∈ paths ∧ "lib/a.js" ∈ paths ∧ ("README.md" ∉ paths).
Proof.
  destruct (C3_final_inclusion_set demo "/tmp/zapier-0a1b2c3d"
              "/home/me/app/build/build.zip" world0
              (logged (Bundle "/tmp/zapier-0a1b2c3d/zapierwrapper.js") world0)
              (logged (Walk "/tmp/zapier-0a1b2c3d")
                 (logged (Bundle "/tmp/zapier-0a1b2c3d/zapierwrapper.js") world0))
              ["index.js"; "lib/a.js"; "zapierwrapper.js"]
              ["README.md"; "definition.json"; "index.js"; "lib/a.js";
               "package.json"; "zapierwrapper.js"])
    as (paths & Hrun & _ & Hsmart & _).
  - by vm_compute.
  - by vm_compute.
  - exists paths. split; [exact Hrun |].
    destruct (Hsmart eq_refl) as (_ & _ & Helem). split_and!.
    + apply Helem. right. split; [| by vm_compute].
      apply list_elem_of_In. simpl. tauto.
    + apply Helem. left. apply list_elem_of_In. simpl. tauto.
    + rewrite Helem, !list_elem_of_In. simpl.
      intros [H|[_ Hf]]; [intuition discriminate |].
      vm_compute in Hf. discriminate.
Defined.



(** ** Running the chain *)

(** Symbolic execution: unfold the combinators, then split on the outcome of
    each collaborator call in turn. *)
Ltac exec_head :=
  cbv beta delta
    [then_ call settle settle_unit modify resolve reject uncaught
     ensureDir copyDir runCommand readFile writeFile removeDir
     checkCredentials upload bundle walk addLocalFile writeZip
     _appCommandZapierWrapper prepare validate extract stages_1_6];
  cbn beta iota zeta.

Ltac exec_case :=
  match goal with
  | |- context [match ?o with Some _ => _ | None => _ end] =>
      destruct o eqn:?; cbn beta iota zeta
  | |- context [match ?o with inl _ => _ | inr _ => _ end] =>
      destruct o eqn:?; cbn beta iota zeta
  | |- context [match ?o with OnBundler _ => _ | OnStream _ => _ end] =>
      destruct o; cbn beta iota zeta
  | |- context [results ?r] =>
      is_var r; destruct r as [[[|? ?]|?]]; cbn [results]; cbn beta iota zeta
  end.

Ltac exec := exec_head; repeat exec_case.

(** Closes [appends P w w'] when [w'] is [w] under a stack of [logged]. *)
Ltac log_grows :=
  unfold appends, logged; cbn [calls dirs archives];
  rewrite <- ?app_assoc; eexists; split; [reflexivity |];
  repeat constructor; try done.

Lemma appends_refl (P : Call → Prop) (w : World) : appends P w w.
Proof. exists []. by rewrite app_nil_r. Qed.

Lemma appends_trans (P : Call → Prop) (w1 w2 w3 : World) :
  appends P w1 w2 → appends P w2 w3 → appends P w1 w3.
Proof.
  intros (n1 & E1 & F1) (n2 & E2 & F2). exists (n1 ++ n2). split.
  - by rewrite E2, E1, app_assoc.
  - by apply Forall_app.
Qed.

Lemma appends_weaken (P Q : Call → Prop) (w w' : World) :
  (∀ c, P c → Q c) → appends P w w' → appends Q w w'.
Proof.
  intros HPQ (new & E & F). exists new. split; [done |].
  eapply Forall_impl; eauto.
Qed.

(** Stages 1 to 6 write no archive, make only their own calls, and leave
    the working directory in place once it is created. *)
Lemma stages_1_6_spec (env : Env) (wdir tmpDir : string) (w : World) :
  match stages_1_6 env wdir tmpDir w with
  | (o, w') =>
      archives w' = archives w ∧
      appends (λ c, early_call c = true) w w' ∧
      match o with
      | Rejected (External EnsureDirC _) => dirs w' = dirs w
      | Rejected (External who _) =>
          dirs w' = {[tmpDir]} ∪ dirs w ∧
          who ∈ [CopyDirC; RunCommandC; ReadFileC; WriteFileC; HandlerC]
      | Rejected (JsError m) =>
          dirs w' = {[tmpDir]} ∪ dirs w ∧ m = validation_message
      | Resolved _ => dirs w' = {[tmpDir]} ∪ dirs w
      | Uncaught _ => False
      end
  end.
Proof.
  exec.
  all: split_and!; try done; try log_grows.
  all: rewrite !list_elem_of_In; simpl; tauto.
Qed.

(** ** The resolver and the scanner *)

Lemma foldl_pushStripped (cwd : string) (acc l : list string) :
  foldl (pushStripped cwd) acc l = acc ++ omap (stripPath cwd) l.
Proof.
  revert acc. induction l as [|f l IH]; intros acc; simpl.
  - by rewrite app_nil_r.
  - rewrite IH. unfold pushStripped.
    destruct (stripPath cwd f); simpl; [by rewrite <- app_assoc | done].
Qed.

Lemma browserifyFiles_run (env : Env) (entryPoint : string) (w : World) :
  browserifyFiles env entryPoint w =
  match bundle_out env (entryPoint +:+ "/zapierwrapper.js") with
  | inl (OnBundler d) =>
      (Rejected (External BrowserifyC d),
       logged (Bundle (entryPoint +:+ "/zapierwrapper.js")) w)
  | inl (OnStream d) =>
      (Uncaught (External BrowserifyC d),
       logged (Bundle (entryPoint +:+ "/zapierwrapper.js")) w)
  | inr rows =>
      (Resolved (Js.sort (omap (stripPath (entryPoint +:+ "/")) (rowPath <$> rows))),
       logged (Bundle (entryPoint +:+ "/zapierwrapper.js")) w)
  end.
Proof. unfold browserifyFiles. exec; by rewrite ?foldl_pushStripped. Qed.

Lemma listFiles_run (env : Env) (dir : string) (w : World) :
  listFiles env dir w =
  match walk_out env dir with
  | inl d => (Rejected (External WalkC d), logged (Walk dir) w)
  | inr items =>
      (Resolved (Js.sort (omap (stripPath (dir +:+ "/"))
                   (item_path <$> List.filter (λ item, negb (isDirectory item)) items))),
       logged (Walk dir) w)
  end.
Proof. unfold listFiles. exec; by rewrite ?foldl_pushStripped. Qed.

(** ** The packager *)

Lemma addAll_spec (env : Env) (dir : string) (paths : list string) :
  ∀ (zip : list ZipEntry) (w : World),
    match addAll env dir zip paths w with
    | (o, w') =>
        dirs w' = dirs w ∧ archives w' = archives w ∧
        appends (λ c, archiving_call c = true) w w' ∧
        match o with
        | Resolved _ => True
        | Rejected e => ∃ d, e = External ZipC d
        | Uncaught _ => False
        end
    end.
Proof.
  induction paths as [|p paths IH]; intros zip w; cbn [addAll].
  - cbv [resolve]. split_and!; try done. apply appends_refl.
  - exec_head. exec_case.
    + split_and!; try done; [log_grows | eauto].
    + match goal with |- context [addAll env dir ?z paths ?w1] =>
        specialize (IH z w1); destruct (addAll env dir z paths w1) as [o w']
      end.
      destruct IH as (Hd & Ha & Hc & Ho). split_and!; try done.
      eapply appends_trans; [| exact Hc]. log_grows.
Qed.

Lemma addAll_ok (env : Env) (dir : string) (paths : list string) :
  ∀ (zip : list ZipEntry) (w : World),
    (∀ p, p ∈ paths → addLocalFile_out env (path_join env dir p) = None) →
    addAll env dir zip paths w =
    (Resolved (zip ++ (entryFor env dir <$> paths)),
     mkWorld (dirs w) (archives w)
       (calls w ++ ((λ e : ZipEntry, AddLocalFile e.1 e.2) <$> (entryFor env dir <$> paths)))).
Proof.
  induction paths as [|p paths IH]; intros zip w Hok; cbn [addAll].
  - cbv [resolve]. simpl. rewrite !app_nil_r. by destruct w.
  - exec_head. rewrite (Hok p) by (by left). cbn beta iota zeta.
    rewrite IH by (intros q Hq; apply Hok; by right).
    unfold logged, entryFor. simpl. by rewrite <- !app_assoc.
Qed.

Lemma makeZip_spec (env : Env) (dir zipPath : string) (w : World) :
  match makeZip env dir zipPath w with
  | (o, w') =>
      dirs w' = dirs w ∧
      appends (λ c, archiving_call c = true) w w' ∧
      match o with
      | Resolved _ => True
      | Rejected e =>
          archives w' = archives w ∧
          ∃ who d, e = External who d ∧ who ∈ [BrowserifyC; WalkC; ZipC]
      | Uncaught e => archives w' = archives w ∧ ∃ d, e = External BrowserifyC d
      end
  end.
Proof.
  unfold makeZip, then_. rewrite browserifyFiles_run.
  destruct (bundle_out env _) as [[d|d]|rows].
  { split_and!; try done; [log_grows |]. exists BrowserifyC, d.
    rewrite !list_elem_of_In. simpl. tauto. }
  { split_and!; try done; [log_grows | eauto]. }
  rewrite listFiles_run. destruct (walk_out env dir) as [d|items].
  { split_and!; try done; [log_grows |]. exists WalkC, d.
    rewrite !list_elem_of_In. simpl. tauto. }
  cbv [resolve]. unfold pack, then_.
  match goal with |- context [addAll env dir [] ?ps ?w1] =>
    pose proof (addAll_spec env dir ps [] w1) as H;
    destruct (addAll env dir [] ps w1) as [[zip|e|e] w2]
  end; destruct H as (Hd & Ha & Hc & Ho); [| | done].
  - assert (appends (λ c, archiving_call c = true) w (logged (WriteZip zipPath) w2))
      as Hlog.
    { eapply appends_trans; [| eapply appends_trans; [exact Hc |]]; log_grows. }
    exec.
    + split_and!; [exact Hd | exact Hlog | exact Ha |].
      eexists ZipC, _. split; [done |]. rewrite !list_elem_of_In. simpl. tauto.
    + split_and!; [exact Hd | exact Hlog | done].
  - destruct Ho as [d ->]. split_and!; try done.
    + eapply appends_trans; [| exact Hc]. log_grows.
    + exists ZipC, d. rewrite !list_elem_of_In. simpl. tauto.
Qed.

(** ** The orchestrator *)

Lemma early_call_not_archiving (c : Call) :
  early_call c = true → archiving_call c = false.
Proof. by destruct c. Qed.



Lemma or_default_idem (a : option string) (b : string) :
  Js.or_default (Some (Js.or_default a b)) b = Js.or_default a b.
Proof.
  unfold Js.or_default. destruct a as [s|].
  - destruct (String.eqb_spec s "") as [->|Hs].
    + by destruct (String.eqb b "").
    + by apply String.eqb_neq in Hs as ->.
  - by destruct (String.eqb b "").
Qed.

(** [build] resolves with the archive path it was given (or the default). *)
Lemma build_resolves (env : Env) (zipPath wdir : option string) (w w' : World)
  (z : string) :
  build env zipPath wdir w = (Resolved z, w') →
  z = Js.or_default zipPath (BUILD_PATH env).
Proof.
  unfold build, then_. cbv zeta.
  destruct (stages_1_6 env _ _ w) as [[[]|e|e] w1]; [| done..].
  destruct (makeZip env _ _ w1) as [[[]|e|e] w2]; [| done..].
  destruct (removeDir env _ w2) as [[[]|e|e] w3]; [| done..].
  cbv [resolve]. congruence.
Qed.

(** When the app reports validation problems, stages 1 to 6 reject. *)
Lemma stages_1_6_invalid (env : Env) (wdir tmpDir : string) (w : World)
  (errs : list string) :
  handler_out env tmpDir validateEvent = inr {| results := RArray errs |} →
  errs ≠ [] →
  ∃ e w', stages_1_6 env wdir tmpDir w = (Rejected e, w').
Proof.
  unfold validateEvent. intros H Hne. exec.
  all: try (eexists _, _; reflexivity).
  all: congruence.
Qed.



(** C2: when the in-process validation returns a non-empty error list, the
    build rejects, no archive is written and no call of the archiving stage
    is made. *)
Theorem C2_validation_errors_abort (env : Env) (zipPath wdir : option string)
  (w : World) (errs : list string) :
  handler_out env (tmpDirOf env) validateEvent = inr {| results := RArray errs |} →
  errs ≠ [] →
  ∃ e w',
    build env zipPath wdir w = (Rejected e, w') ∧
    archives w' = archives w ∧
    appends (λ c, archiving_call c = false) w w'.
Proof.
  intros Hval Hne. unfold build, then_. cbv zeta.
  set (dir := Js.or_default wdir _).
  pose proof (stages_1_6_spec env dir (tmpDirOf env) w) as H1.
  destruct (stages_1_6_invalid env dir _ w errs Hval Hne) as (e & w' & Hrun).
  rewrite Hrun in *. destruct H1 as (Ha & Hc & _).
  exists e, w'. split_and!; [done | done |].
  eapply appends_weaken; [| exact Hc]. apply early_call_not_archiving.
Qed.

Lemma C2_validation_errors_abort_witness :
  ∃ e w',
    build invalid_app None None world0 = (Rejected e, w') ∧
    archives w' = archives world0 ∧
    appends (λ c, archiving_call c = false) world0 w'.
Proof.
  apply (C2_validation_errors_abort invalid_app None None world0 ["Missing title"]).
  - reflexivity.
  - discriminate.
Defined.

(** C7 (as amended): once validation is reached and reports problems, the
    build rejects with one fixed message that points to [zapier validate];
    the message is the same whatever the problems are and does not list
    them. *)
Theorem C7_validation_message_is_fixed (env : Env) (zipPath wdir : option string)
  (w w1 : World) (errs : list string) :
  prepare env (Js.or_default wdir (process_cwd env)) (tmpDirOf env) w
    = (Resolved tt, w1) →
  handler_out env (tmpDirOf env) validateEvent = inr {| results := RArray errs |} →
  errs ≠ [] →
  build env zipPath wdir w
    = (Rejected (JsError validation_message),
       logged (Handler (tmpDirOf env) validateEvent) w1) ∧
  message_of (JsError validation_message)
    = "We hit some validation errors, try running `zapier validate` to see them!".
Proof.
  intros Hprep Hval Hne. split; [| reflexivity].
  unfold build. cbv zeta. unfold stages_1_6, then_ at 1 2 3 4.
  rewrite Hprep. unfold validate, _appCommandZapierWrapper. exec_head.
  fold validateEvent. rewrite Hval. cbn beta iota zeta.
  by destruct errs.
Qed.

Lemma C7_validation_message_is_fixed_witness :
  build invalid_app None None world0
    = (Rejected (JsError validation_message),
       logged (Handler (tmpDirOf invalid_app) validateEvent)
         (prepare invalid_app "/home/me/app" (tmpDirOf invalid_app) world0).2) ∧
  message_of (JsError validation_message)
    = "We hit some validation errors, try running `zapier validate` to see them!".
Proof.
  apply (C7_validation_message_is_fixed invalid_app None None world0 _ ["Missing title"]).
  - reflexivity.
  - reflexivity.
  - discriminate.
Defined.

(** C7 fails as stated: the app reports the problem "Missing title", and the
    message of the error that reaches the user does not contain it. *)
Lemma C7_problems_not_listed :
  handler_out invalid_app (tmpDirOf invalid_app) validateEvent
    = inr {| results := RArray ["Missing title"] |} ∧
  (build invalid_app None None world0).1 = Rejected (JsError validation_message) ∧
  ¬ lists_each (message_of (JsError validation_message)) ["Missing title"].
Proof.
  split_and!; [reflexivity | by vm_compute |].
  intros Hall. specialize (Hall "Missing title").
  rewrite list_elem_of_In in Hall. simpl in Hall.
  specialize (Hall (or_introl eq_refl)). vm_compute in Hall. discriminate.
Qed.



(** ** The upload coordinator *)

(** C6 (as amended): [buildAndUploadDir] checks the credentials first and,
    when they are absent, rejects after that single call; otherwise it runs
    [build] on the defaulted arguments, and when the build resolves (with the
    archive path) it calls [upload] and settles as the upload settles: it
    resolves with the upload's value, not with the archive path.  A build
    that rejects, or is never settled, ends the chain without an upload. *)
Theorem C6_check_build_upload (env : Env) (zipPath appDir : option string) (w : World) :
  let zip := Js.or_default zipPath (BUILD_PATH env) in
  let app := Js.or_default appDir "." in
  match checkCredentials_out env with
  | Some d =>
      buildAndUploadDir env zipPath appDir w
        = (Rejected (External CheckCredentialsC d), logged CheckCredentials w)
  | None =>
      match build env (Some zip) (Some app) (logged CheckCredentials w) with
      | (Rejected e, w1) => buildAndUploadDir env zipPath appDir w = (Rejected e, w1)
      | (Uncaught e, w1) => buildAndUploadDir env zipPath appDir w = (Uncaught e, w1)
      | (Resolved z, w1) =>
          z = zip ∧
          buildAndUploadDir env zipPath appDir w =
            match upload_out env zip app with
            | inl d => (Rejected (External UploadC d), logged (Upload zip app) w1)
            | inr v => (Resolved v, logged (Upload zip app) w1)
            end
      end
  end.
Proof.
  cbv zeta. unfold buildAndUploadDir. exec_head.
  destruct (checkCredentials_out env) as [d|]; cbn beta iota zeta; [done |].
  destruct (build env _ _ (logged CheckCredentials w)) as [[z|e|e] w1] eqn:Hb;
    [| done..].
  split.
  - apply build_resolves in Hb. by rewrite or_default_idem in Hb.
  - by destruct (upload_out env _ _).
Qed.

(** C6 fails as stated: on a run where everything succeeds and the upload
    resolves with no value, [buildAndUploadDir] resolves with [undefined],
    not with the archive path [build/build.zip]. *)
Lemma C6_archive_path_not_returned :
  (buildAndUploadDir demo None None world0).1 = Resolved JUndefined ∧
  Js.or_default None (BUILD_PATH demo) = "build/build.zip" ∧
  Resolved JUndefined ≠ Resolved (JString "build/build.zip").
Proof. split_and!; [by vm_compute | reflexivity | discriminate]. Qed.

(** ** Claims on the resolver *)

(** What the resolver emits is what [stripPath] makes of the rows. *)
Lemma browserifyFiles_emits (env : Env) (entryPoint : string) (rows : list Row)
  (w : World) :
  bundle_out env (entryPoint +:+ "/zapierwrapper.js") = inr rows →
  ∃ out,
    browserifyFiles env entryPoint w
      = (Resolved out, logged (Bundle (entryPoint +:+ "/zapierwrapper.js")) w) ∧
    Sorted String.le out ∧
    out ≡ₚ omap (stripPath (entryPoint +:+ "/")) (rowPath <$> rows).
Proof.
  intros Hb. rewrite browserifyFiles_run, Hb. eexists. split; [reflexivity |].
  split; [apply sort_Sorted | apply sort_Permutation].
Qed.

(** C8: the resolver emits, for each row of the traversal, the row's path
    with the base directory stripped: a path that is the base directory
    followed by a remainder free of it yields the remainder, and a path in
    which the base directory does not occur is emitted unchanged; this is how
    [stripPath] behaves for every base directory. *)
Theorem C8_strip_base_prefix (env : Env) (entryPoint : string) (rows : list Row)
  (w : World) (r : Row) :
  bundle_out env (entryPoint +:+ "/zapierwrapper.js") = inr rows →
  r ∈ rows →
  (∀ b rest, occurs b rest = false → stripPath b (b +:+ rest) = Some rest) ∧
  (∀ b p, occurs b p = false → stripPath b p = Some p) ∧
  ∃ out w',
    browserifyFiles env entryPoint w = (Resolved out, w') ∧
    (∀ q, q ∈ out ↔
          ∃ r', r' ∈ rows ∧ stripPath (entryPoint +:+ "/") (rowPath r') = Some q) ∧
    (∀ rest, rowPath r = (entryPoint +:+ "/") +:+ rest →
             occurs (entryPoint +:+ "/") rest = false → rest ∈ out) ∧
    (occurs (entryPoint +:+ "/") (rowPath r) = false → rowPath r ∈ out).
Proof.
  intros Hb Hr. split; [exact stripPath_prefixed |].
  split; [exact stripPath_unprefixed |].
  destruct (browserifyFiles_emits env entryPoint rows w Hb) as (out & Hrun & _ & Hperm).
  exists out, (logged (Bundle (entryPoint +:+ "/zapierwrapper.js")) w).
  assert (∀ q, q ∈ out ↔
            ∃ r', r' ∈ rows ∧ stripPath (entryPoint +:+ "/") (rowPath r') = Some q)
    as Hout.
  { intros q. rewrite Hperm, list_elem_of_omap. split.
    - intros (f & (r' & -> & Hr')%list_elem_of_fmap & Hs). eauto.
    - intros (r' & Hr' & Hs). exists (rowPath r'). split; [| done].
      apply list_elem_of_fmap. eauto. }
  split_and!; [done | done | |].
  - intros rest E Hfree. apply Hout. exists r. split; [done |].
    rewrite E. by apply stripPath_prefixed.
  - intros Hfree. apply Hout. exists r. split; [done |].
    by apply stripPath_unprefixed.
Qed.

Lemma C8_strip_base_prefix_witness :
  ∃ out w',
    browserifyFiles demo "/tmp/zapier-0a1b2c3d" world0 = (Resolved out, w') ∧
    "lib/a.js" ∈ out.
Proof.
  destruct (C8_strip_base_prefix demo "/tmp/zapier-0a1b2c3d" demo_rows world0
              (row "/tmp/zapier-0a1b2c3d/lib/a.js"))
    as (_ & _ & out & w' & Hrun & _ & Hpre & _).
  - reflexivity.
  - apply list_elem_of_In. simpl. tauto.
  - exists out, w'. split; [exact Hrun |].
    apply (Hpre "lib/a.js"); reflexivity.
Defined.

(** Membership in a three-element list, case by case. *)
Lemma elem_of_list3 {A} (x a b c : A) : x ∈ [a; b; c] ↔ x = a ∨ x = b ∨ x = c.
Proof. rewrite !elem_of_cons, elem_of_nil. tauto. Qed.

Lemma nested_closure :
  reports_closure nested_imports "/tmp/zapier-0a1b2c3d/zapierwrapper.js" nested_rows.
Proof.
  split; [apply (bool_decide_unpack _); by vm_compute |].
  intros f. change (rowPath <$> nested_rows) with
    ["/tmp/zapier-0a1b2c3d/zapierwrapper.js"; "/tmp/zapier-0a1b2c3d/index.js";
     "/tmp/zapier-0a1b2c3d/vendor/tmp/zapier-0a1b2c3d/index.js"].
  rewrite elem_of_list3. split.
  - intros [-> | [-> | ->]].
    + constructor.
    + eapply reach_import; [constructor |]. apply list_elem_of_In. simpl. tauto.
    + eapply reach_import; [constructor |]. apply list_elem_of_In. simpl. tauto.
  - intros Hreach. induction Hreach as [|f g Hf IH Hg]; [tauto |].
    apply list_elem_of_In in Hg.
    destruct IH as [-> | [-> | ->]]; simpl in Hg; intuition (subst; auto).
Qed.

(** C5: the resolver does not return the transitive closure on every module
    graph of relative imports of existing files.  Here the wrapper imports
    two existing files by relative paths, one of them below a directory path
    that repeats the base directory; the traversal reports the three
    reachable files, once each.  [stripPath] keeps what follows the last
    occurrence of the base directory, so the resolver returns [index.js]
    twice and never the nested file's own relative path. *)
Theorem C5_nested_path_duplicated :
  reports_closure nested_imports "/tmp/zapier-0a1b2c3d/zapierwrapper.js" nested_rows ∧
  stripPath "/tmp/zapier-0a1b2c3d/" "/tmp/zapier-0a1b2c3d/vendor/tmp/zapier-0a1b2c3d/index.js"
    = Some "index.js" ∧
  browserifyFiles nested "/tmp/zapier-0a1b2c3d" world0
    = (Resolved ["index.js"; "index.js"; "zapierwrapper.js"],
       logged (Bundle "/tmp/zapier-0a1b2c3d/zapierwrapper.js") world0) ∧
  ¬ NoDup ["index.js"; "index.js"; "zapierwrapper.js"] ∧
  reachable nested_imports "/tmp/zapier-0a1b2c3d/zapierwrapper.js"
    ("/tmp/zapier-0a1b2c3d/" +:+ "vendor/tmp/zapier-0a1b2c3d/index.js") ∧
  ("vendor/tmp/zapier-0a1b2c3d/index.js"
     ∉ ["index.js"; "index.js"; "zapierwrapper.js"]).
Proof.
  split_and!.
  - exact nested_closure.
  - reflexivity.
  - by vm_compute.
  - intros [Hnotin _]%NoDup_cons. apply Hnotin. by left.
  - apply nested_closure. apply list_elem_of_In. simpl. tauto.
  - rewrite elem_of_list3. intuition discriminate.
Qed.

(** ** Claims on the packager *)

(** C9: for each path the packager takes the directory component; a path
    whose component is the root marker "." is added with no directory, any
    other under its directory component, in the order given; then the
    archive is written at the output path. *)
Theorem C9_pack_entries (env : Env) (dir zipPath : string) (paths : list string)
  (w : World) :
  (∀ p, p ∈ paths → addLocalFile_out env (path_join env dir p) = None) →
  writeZip_out env zipPath = None →
  ∃ w',
    pack env dir zipPath paths w = (Resolved tt, w') ∧
    archives w' = <[zipPath := entryFor env dir <$> paths]> (archives w) ∧
    calls w' =
      calls w ++ ((λ e : ZipEntry, AddLocalFile e.1 e.2) <$> (entryFor env dir <$> paths))
              ++ [WriteZip zipPath] ∧
    ∀ p, p ∈ paths →
      (Js.dirname p = "." → entryFor env dir p = (path_join env dir p, None)) ∧
      (Js.dirname p ≠ "." →
       entryFor env dir p = (path_join env dir p, Some (Js.dirname p))).
Proof.
  intros Hadd Hwrite. unfold pack, then_.
  rewrite (addAll_ok env dir paths [] w Hadd). exec_head. rewrite Hwrite.
  cbn beta iota zeta. eexists. split; [reflexivity |].
  unfold logged. cbn [archives calls]. split_and!.
  - done.
  - by rewrite <- app_assoc.
  - intros p _. unfold entryFor. split.
    + by intros ->.
    + intros Hne. by apply String.eqb_neq in Hne as ->.
Qed.

Lemma C9_pack_entries_witness :
  ∃ w',
    pack demo "/tmp/zapier-0a1b2c3d" "/home/me/app/build/build.zip"
      ["index.js"; "lib/a.js"] world0 = (Resolved tt, w') ∧
    archives w' !! "/home/me/app/build/build.zip"
      = Some [("/tmp/zapier-0a1b2c3d/index.js", None);
              ("/tmp/zapier-0a1b2c3d/lib/a.js", Some "lib")].
Proof.
  destruct (C9_pack_entries demo "/tmp/zapier-0a1b2c3d" "/home/me/app/build/build.zip"
              ["index.js"; "lib/a.js"] world0)
    as (w' & Hrun & Harch & _).
  - intros p _. reflexivity.
  - reflexivity.
  - exists w'. split; [exact Hrun |]. rewrite Harch. apply lookup_insert_eq.
Defined.

(** * Further properties of the module *)

(** ** [stripPath] *)

Lemma nomatch_snoc (sep chunk : string) (c : ascii) (s : string) :
  nomatch sep chunk (String c s) = true →
  String.prefix sep (String c s) = false →
  nomatch sep (chunk +:+ String c "") s = true.
Proof.
  intros Hn Hp. induction chunk as [|d chunk IH]; cbn [nomatch] in *.
  - change ("" +:+ String c "") with (String c "").
    cbn [nomatch]. change (String c "" +:+ s) with (String c s).
    by rewrite Hp.
  - apply andb_true_iff in Hn as [Hd Hn].
    change (String d chunk +:+ String c "") with (String d (chunk +:+ String c "")).
    cbn [nomatch]. rewrite (IH Hn), andb_true_r.
    change (String d (chunk +:+ String c "") +:+ s)
      with ((String d chunk +:+ String c "") +:+ s).
    rewrite app_assoc_str. exact Hd.
Qed.

Lemma nomatch_end (sep chunk : string) :
  sep ≠ "" → nomatch sep chunk "" = true → occurs sep chunk = false.
Proof.
  intros Hne. induction chunk as [|d chunk IH]; cbn [nomatch occurs]; intros Hn.
  - destruct sep; [done | reflexivity].
  - apply andb_true_iff in Hn as [Hd Hn]. rewrite app_empty_r in Hd.
    apply negb_true_iff in Hd. by rewrite Hd, (IH Hn).
Qed.

(** The last piece of a split: a tail of the input in which the separator
    does not occur. *)
Lemma split_go_last (sep : string) :
  sep ≠ "" →
  ∀ s,
    (∀ chunk, nomatch sep chunk s = true →
       ∃ r u, last (Js.split_go sep 0 chunk s) = Some r ∧
              chunk +:+ s = u +:+ r ∧ occurs sep r = false) ∧
    (∀ skip,
       ∃ r u, last (Js.split_go sep skip "" s) = Some r ∧
              s = u +:+ r ∧ occurs sep r = false).
Proof.
  intros Hne. induction s as [|c s [IHa IHb]].
  - split.
    + intros chunk Hn. exists chunk, "". cbn [Js.split_go].
      split_and!; [done | by rewrite app_empty_r | by apply nomatch_end].
    + intros skip. exists "", "". destruct skip; cbn [Js.split_go];
        (split_and!; [done | done | destruct sep; [done | reflexivity]]).
  - assert (∀ chunk, nomatch sep chunk (String c s) = true →
              ∃ r u, last (Js.split_go sep 0 chunk (String c s)) = Some r ∧
                     chunk +:+ String c s = u +:+ r ∧ occurs sep r = false) as Ha.
    { intros chunk Hn. cbn [Js.split_go].
      destruct (String.prefix sep (String c s)) eqn:Hp.
      - destruct (IHb (String.length sep - 1)) as (r & u & Hl & -> & Ho).
        exists r, (chunk +:+ String c u). split_and!; [| | done].
        + destruct (Js.split_go sep (String.length sep - 1) "" (u +:+ r)) eqn:E;
            [by apply split_go_nonempty in E | exact Hl].
        + by rewrite app_assoc_str.
      - destruct (IHa (chunk +:+ String c "")) as (r & u & Hl & Hu & Ho);
          [by apply nomatch_snoc |].
        exists r, u. split_and!; [done | | done].
        by rewrite <- Hu, app_assoc_str. }
    split; [exact Ha |].
    intros [|k].
    + destruct (Ha "" eq_refl) as (r & u & Hl & Hu & Ho). by exists r, u.
    + cbn [Js.split_go]. destruct (IHb k) as (r & u & Hl & -> & Ho).
      by exists r, (String c u).
Qed.

(** Up to the leftmost match: when no match begins inside [chunk], the scan
    closes the piece at the separator that follows and starts afresh after
    it. *)
Lemma split_go_leftmost (sep chunk : string) :
  sep ≠ "" →
  ∀ chunk0 rest,
    nomatch sep chunk (sep +:+ rest) = true →
    Js.split_go sep 0 chunk0 (chunk +:+ sep +:+ rest)
      = (chunk0 +:+ chunk) :: Js.split_go sep 0 "" rest.
Proof.
  intros Hne. induction chunk as [|d chunk IH]; intros chunk0 rest Hn.
  - change ("" +:+ sep +:+ rest) with (sep +:+ rest). rewrite app_empty_r.
    destruct sep as [|c b]; [done |].
    change (String c b +:+ rest) with (String c (b +:+ rest)).
    cbn [Js.split_go]. change (String c (b +:+ rest)) with (String c b +:+ rest).
    rewrite prefix_app. cbn [String.length].
    replace (S (String.length b) - 1) with (String.length b) by lia.
    by rewrite split_go_skip.
  - cbn [nomatch] in Hn. apply andb_true_iff in Hn as [Hd Hn].
    apply negb_true_iff in Hd.
    change (String d chunk +:+ sep +:+ rest)
      with (String d (chunk +:+ sep +:+ rest)) in *.
    cbn [Js.split_go]. rewrite Hd, (IH _ _ Hn). f_equal.
    by rewrite app_assoc_str.
Qed.

(** A string in which the separator occurs has a leftmost match. *)
Lemma leftmost_match (sep s : string) :
  sep ≠ "" → occurs sep s = true →
  ∃ chunk rest, s = chunk +:+ sep +:+ rest ∧ nomatch sep chunk (sep +:+ rest) = true.
Proof.
  intros Hne. induction s as [|c s IH]; cbn [occurs]; intros H.
  - destruct sep; [done | discriminate].
  - destruct (String.prefix sep (String c s)) eqn:Hp.
    + destruct (prefix_inv _ _ Hp) as [v Hv]. by exists "", v.
    + destruct (IH H) as (chunk & rest & -> & Hn). exists (String c chunk), rest.
      split; [reflexivity |]. cbn [nomatch]. rewrite Hn, andb_true_r.
      apply negb_true_iff. exact Hp.
Qed.

(** X1: for a non-empty base, [stripPath] is fixed by two rules.  A path in
    which the base does not occur comes back whole.  A path in which it
    occurs has a leftmost match, and the path is stripped as the text after
    that match is.  So the result is always defined; it is a tail of the
    input, the base does not occur in it, and stripping it again changes
    nothing. *)
Theorem stripPath_tail_after_last_match (cwd filePath : string) :
  cwd ≠ "" →
  (occurs cwd filePath = false → stripPath cwd filePath = Some filePath) ∧
  (occurs cwd filePath = true →
     ∃ chunk rest,
       filePath = chunk +:+ cwd +:+ rest ∧ nomatch cwd chunk (cwd +:+ rest) = true) ∧
  (∀ chunk rest,
     filePath = chunk +:+ cwd +:+ rest → nomatch cwd chunk (cwd +:+ rest) = true →
     stripPath cwd filePath = stripPath cwd rest) ∧
  ∃ r u,
    stripPath cwd filePath = Some r ∧
    filePath = u +:+ r ∧
    occurs cwd r = false ∧
    stripPath cwd r = Some r.
Proof.
  intros Hne. split_and!.
  - apply stripPath_unprefixed.
  - by apply leftmost_match.
  - intros chunk rest -> Hn. unfold stripPath, Js.pop, Js.split.
    destruct cwd as [|c b] eqn:E; [done |]. rewrite <- E in *.
    rewrite (split_go_leftmost cwd chunk Hne "" rest Hn).
    destruct (Js.split_go cwd 0 "" rest) eqn:Hsplit;
      [by apply split_go_nonempty in Hsplit | reflexivity].
  - destruct (split_go_last cwd Hne filePath) as [Ha _].
    destruct (Ha "" eq_refl) as (r & u & Hl & Hu & Ho).
    exists r, u. split_and!; [| exact Hu | exact Ho | by apply stripPath_unprefixed].
    unfold stripPath, Js.pop, Js.split. by destruct cwd.
Qed.

Lemma stripPath_tail_after_last_match_witness :
  stripPath "/app/" "/app/x/app/y.js" = stripPath "/app/" "x/app/y.js" ∧
  ∃ r u,
    stripPath "/app/" "/app/x/app/y.js" = Some r ∧
    "/app/x/app/y.js" = u +:+ r ∧
    occurs "/app/" r = false ∧
    stripPath "/app/" r = Some r.
Proof.
  destruct (stripPath_tail_after_last_match "/app/" "/app/x/app/y.js")
    as (_ & _ & Hrule & Hresult); [discriminate |].
  split; [apply (Hrule "" "x/app/y.js"); reflexivity | exact Hresult].
Defined.

Lemma prefix_empty (s : string) : String.prefix "" s = true.
Proof. by destruct s. Qed.

Lemma prefix_app_long (sep t x : string) :
  String.length sep ≤ String.length t →
  String.prefix sep (t +:+ x) = String.prefix sep t.
Proof.
  revert t. induction sep as [|c sep IH]; intros t Hlen.
  - by rewrite !prefix_empty.
  - destruct t as [|d t]; cbn [String.length] in Hlen; [lia |].
    change (String d t +:+ x) with (String d (t +:+ x)). cbn [String.prefix].
    destruct (ascii_dec c d); [| done]. apply IH. lia.
Qed.

Lemma split_go_through (sep e x pre chunk : string) :
  String.length sep ≤ S (String.length e) →
  occurs sep (pre +:+ e) = false →
  Js.split_go sep 0 chunk (pre +:+ e +:+ x)
    = Js.split_go sep 0 (chunk +:+ pre) (e +:+ x).
Proof.
  intros Hlen. revert chunk. induction pre as [|c pre IH]; intros chunk Ho.
  - by rewrite app_empty_r.
  - change (String c pre +:+ e) with (String c (pre +:+ e)) in Ho.
    cbn [occurs] in Ho. apply orb_false_iff in Ho as [Hp Ho].
    change (String c pre +:+ e +:+ x) with (String c (pre +:+ e +:+ x)).
    cbn [Js.split_go].
    replace (String.prefix sep (String c (pre +:+ e +:+ x))) with false.
    + rewrite (IH _ Ho). f_equal.
      change (String c pre) with (String c "" +:+ pre). by rewrite app_assoc_str.
    + symmetry. rewrite <- Hp.
      change (String c (pre +:+ e +:+ x)) with (String c pre +:+ e +:+ x).
      rewrite <- app_assoc_str.
      change (String c pre +:+ e) with (String c (pre +:+ e)).
      apply prefix_app_long. cbn [String.length]. rewrite length_app_str. lia.
Qed.

Lemma split_go_at_match (sep chunk r : string) :
  occurs sep r = false → Js.split_go sep 0 chunk (sep +:+ r) = [chunk; r].
Proof.
  intros H. destruct sep as [|c b]; [by rewrite occurs_empty in H |].
  change (String c b +:+ r) with (String c (b +:+ r)).
  cbn [Js.split_go]. change (String c (b +:+ r)) with (String c b +:+ r).
  rewrite prefix_app. cbn [String.length].
  replace (S (String.length b) - 1) with (String.length b) by lia.
  by rewrite split_go_skip, (split_go_no_occurrence _ _ _ H).
Qed.

(** X2: a path that carries something before the base directory (as when
    the traversal reports [/private/var/...] for a base of [/var/...]) is
    stripped down to the remainder, as long as the base does not occur before
    its own place or in the remainder. *)
Theorem stripPath_foreign_prefix (entryPoint pre rest : string) :
  occurs (entryPoint +:+ "/") (pre +:+ entryPoint) = false →
  occurs (entryPoint +:+ "/") rest = false →
  stripPath (entryPoint +:+ "/") (pre +:+ (entryPoint +:+ "/") +:+ rest) = Some rest.
Proof.
  intros Hpre Hrest. unfold stripPath, Js.pop, Js.split.
  destruct (entryPoint +:+ "/") as [|c b] eqn:E.
  { by destruct entryPoint. }
  rewrite <- E in *.
  rewrite (app_assoc_str entryPoint "/" rest).
  rewrite split_go_through; [| rewrite length_app_str; simpl; lia | done].
  rewrite <- (app_assoc_str entryPoint "/" rest).
  by rewrite split_go_at_match.
Qed.

Lemma stripPath_foreign_prefix_witness :
  stripPath ("/var/folders/zapier-1" +:+ "/")
    ("/private" +:+ ("/var/folders/zapier-1" +:+ "/") +:+ "lib/a.js")
  = Some "lib/a.js".
Proof.
  apply (stripPath_foreign_prefix "/var/folders/zapier-1" "/private" "lib/a.js");
    reflexivity.
Defined.

(** ** The always-included predicate *)

Lemma substring_split (s : string) (k : nat) :
  k ≤ String.length s →
  s = String.substring 0 k s +:+ String.substring k (String.length s - k) s.
Proof.
  revert k. induction s as [|c s IH]; intros k Hk.
  - by destruct k.
  - destruct k as [|k].
    + rewrite Nat.sub_0_r, substring_all. reflexivity.
    + cbn [String.length] in *. cbn [String.substring Nat.sub].
      change (String c ?a +:+ ?b) with (String c (a +:+ b)).
      f_equal. apply IH. lia.
Qed.

Lemma endsWith_spec (s suffix : string) :
  Js.endsWith s suffix = true ↔ ∃ d, s = d +:+ suffix.
Proof.
  split; [| intros [d ->]; apply endsWith_app].
  unfold Js.endsWith. intros [Hlen Heq]%andb_true_iff.
  apply Nat.leb_le in Hlen. apply String.eqb_eq in Heq.
  exists (String.substring 0 (String.length s - String.length suffix) s).
  pose proof (substring_split s (String.length s - String.length suffix)) as Hs.
  replace (String.length s - (String.length s - String.length suffix))
    with (String.length suffix) in Hs by lia.
  rewrite Heq in Hs. apply Hs. lia.
Qed.

(** X3: a path is force-included exactly when its text ends in
    [package.json] or in [definition.json]; the test looks at the end of the
    path, not at the file name, so [my-package.json] qualifies as well. *)
Theorem forceIncludeDumbPath_suffix (filePath : string) :
  (forceIncludeDumbPath filePath = true ↔
     (∃ d, filePath = d +:+ "package.json") ∨
     (∃ d, filePath = d +:+ "definition.json")) ∧
  forceIncludeDumbPath "lib/my-package.json" = true.
Proof.
  split; [| reflexivity].
  unfold forceIncludeDumbPath. by rewrite orb_true_iff, !endsWith_spec.
Qed.

(** ** The scanner *)

Lemma slash_appended_nonempty (dir : string) : dir +:+ "/" ≠ "".
Proof. by destruct dir. Qed.

Lemma omap_stripPath_length (cwd : string) (l : list string) :
  cwd ≠ "" → length (omap (stripPath cwd) l) = length l.
Proof.
  intros Hne. induction l as [|f l IH]; [done |].
  change (omap (stripPath cwd) (f :: l))
    with (match stripPath cwd f with
          | Some y => y :: omap (stripPath cwd) l
          | None => omap (stripPath cwd) l
          end).
  destruct (stripPath_defined cwd f Hne) as [r ->].
  cbn [length]. by rewrite IH.
Qed.

(** X4: when the walk succeeds the scanner returns, sorted, one entry per
    item that is not a directory, each the item's path stripped of the base;
    directories contribute nothing, and a file below the base whose remainder
    does not contain the base appears under that remainder. *)
Theorem listFiles_one_entry_per_file (env : Env) (dir : string) (w : World)
  (items : list Item) :
  walk_out env dir = inr items →
  ∃ out,
    listFiles env dir w = (Resolved out, logged (Walk dir) w) ∧
    Sorted String.le out ∧
    length out = length (List.filter (λ item, negb (isDirectory item)) items) ∧
    (∀ q, q ∈ out ↔
          ∃ item, item ∈ items ∧ isDirectory item = false ∧
                  stripPath (dir +:+ "/") (item_path item) = Some q) ∧
    (∀ item rest, item ∈ items → isDirectory item = false →
                  item_path item = (dir +:+ "/") +:+ rest →
                  occurs (dir +:+ "/") rest = false → rest ∈ out).
Proof.
  intros Hwalk. rewrite listFiles_run, Hwalk. eexists. split; [reflexivity |].
  assert (∀ q, q ∈ Js.sort (omap (stripPath (dir +:+ "/"))
                 (item_path <$> List.filter (λ item, negb (isDirectory item)) items)) ↔
            ∃ item, item ∈ items ∧ isDirectory item = false ∧
                    stripPath (dir +:+ "/") (item_path item) = Some q) as Hout.
  { intros q. rewrite sort_elem, list_elem_of_omap. split.
    - intros (f & (item & -> & Hitem)%list_elem_of_fmap & Hs).
      apply list_elem_of_In, filter_In in Hitem as [Hin Hfile].
      exists item. rewrite list_elem_of_In. by apply negb_true_iff in Hfile.
    - intros (item & Hin & Hfile & Hs). exists (item_path item). split; [| done].
      apply list_elem_of_fmap. exists item. split; [done |].
      apply list_elem_of_In, filter_In. rewrite <- list_elem_of_In.
      by rewrite Hfile. }
  split_and!.
  - apply sort_Sorted.
  - rewrite sort_Permutation, omap_stripPath_length, length_fmap;
      [done | apply slash_appended_nonempty].
  - exact Hout.
  - intros item rest Hin Hfile Hpath Hfree. apply Hout. exists item.
    split_and!; [done | done |]. rewrite Hpath. by apply stripPath_prefixed.
Qed.

Lemma listFiles_one_entry_per_file_witness :
  ∃ out,
    listFiles demo "/tmp/zapier-0a1b2c3d" world0
      = (Resolved out, logged (Walk "/tmp/zapier-0a1b2c3d") world0) ∧
    length out = 6 ∧ "lib/a.js" ∈ out.
Proof.
  destruct (listFiles_one_entry_per_file demo "/tmp/zapier-0a1b2c3d" world0 demo_scan)
    as (out & Hrun & _ & Hlen & _ & Hfile); [reflexivity |].
  exists out. split_and!; [exact Hrun | exact Hlen |].
  apply (Hfile (file "/tmp/zapier-0a1b2c3d/lib/a.js") "lib/a.js");
    [apply list_elem_of_In; simpl; tauto | reflexivity..].
Defined.

(** ** The inclusion policy and the packager *)

(** X5: when every path the resolver returns is among the scanned paths,
    the set chosen under SmartDetection is contained in the set chosen under
    IncludeAll: switching dependency detection off never drops a file. *)
Theorem smart_detection_within_scan (smartPaths dumbPaths : list string) :
  smartPaths ⊆ dumbPaths →
  finalPaths false smartPaths dumbPaths ⊆ finalPaths true smartPaths dumbPaths.
Proof.
  intros Hsub p [Hp|[Hp _]]%finalPaths_elem; [by apply Hsub | exact Hp].
Qed.

Lemma smart_detection_within_scan_witness :
  finalPaths false ["index.js"] ["README.md"; "index.js"; "package.json"]
    ⊆ finalPaths true ["index.js"] ["README.md"; "index.js"; "package.json"].
Proof.
  apply (smart_detection_within_scan ["index.js"]
           ["README.md"; "index.js"; "package.json"]).
  intros p Hp. apply list_elem_of_In in Hp. apply list_elem_of_In.
  simpl in *. tauto.
Defined.

Lemma addAll_resolved (env : Env) (dir : string) (paths : list string) :
  ∀ (zip z : list ZipEntry) (w w' : World),
    addAll env dir zip paths w = (Resolved z, w') →
    z = zip ++ (entryFor env dir <$> paths) ∧
    dirs w' = dirs w ∧ archives w' = archives w ∧
    ∀ p, p ∈ paths → addLocalFile_out env (path_join env dir p) = None.
Proof.
  induction paths as [|p paths IH]; intros zip z w w'; cbn [addAll].
  - cbv [resolve]. intros [= <- <-]. rewrite app_nil_r. split_and!; try done.
    intros p Hp. by apply elem_of_nil in Hp.
  - exec_head. destruct (addLocalFile_out env (path_join env dir p)) eqn:Hadd;
      cbn beta iota zeta; [done |].
    intros (-> & Hd & Ha & Hok)%IH. split_and!; try done.
    + unfold entryFor. simpl. by rewrite <- app_assoc.
    + intros q [->|Hq]%elem_of_cons; auto.
Qed.

Lemma addAll_fail (env : Env) (dir : string) (pre : list string) (p : string)
  (post : list string) (d : string) :
  ∀ (zip : list ZipEntry) (w : World),
    (∀ q, q ∈ pre → addLocalFile_out env (path_join env dir q) = None) →
    addLocalFile_out env (path_join env dir p) = Some d →
    addAll env dir zip (pre ++ p :: post) w =
    (Rejected (External ZipC d),
     mkWorld (dirs w) (archives w)
       (calls w ++ ((λ e : ZipEntry, AddLocalFile e.1 e.2)
                      <$> (entryFor env dir <$> (pre ++ [p]))))).
Proof.
  induction pre as [|q pre IH]; intros zip w Hok Hfail.
  - cbn [app addAll]. exec_head. rewrite Hfail. cbn beta iota zeta.
    unfold logged, entryFor. reflexivity.
  - cbn [app addAll]. exec_head. rewrite (Hok q) by (by left).
    cbn beta iota zeta. rewrite IH; [| intros; apply Hok; by right | done].
    unfold logged, entryFor. simpl. by rewrite <- !app_assoc.
Qed.

(** X6: the packager stops at the first file AdmZip cannot add: it rejects
    with that error after the calls for the files up to and including the
    failing one; the files after it are never touched and no archive is
    written. *)
Theorem pack_stops_at_first_failure (env : Env) (dir zipPath : string)
  (pre : list string) (p : string) (post : list string) (d : string) (w : World) :
  (∀ q, q ∈ pre → addLocalFile_out env (path_join env dir q) = None) →
  addLocalFile_out env (path_join env dir p) = Some d →
  ∃ w',
    pack env dir zipPath (pre ++ p :: post) w = (Rejected (External ZipC d), w') ∧
    archives w' = archives w ∧
    calls w' = calls w ++ ((λ e : ZipEntry, AddLocalFile e.1 e.2)
                             <$> (entryFor env dir <$> (pre ++ [p]))) ∧
    (WriteZip zipPath ∉ (λ e : ZipEntry, AddLocalFile e.1 e.2)
                          <$> (entryFor env dir <$> (pre ++ [p]))).
Proof.
  intros Hok Hfail. unfold pack, then_.
  rewrite (addAll_fail env dir pre p post d [] w Hok Hfail).
  eexists. split_and!; [reflexivity | done | done |].
  intros (e & Heq & _)%list_elem_of_fmap. discriminate.
Qed.

Lemma pack_stops_at_first_failure_witness :
  ∃ w',
    pack (scenario_missing_file "/tmp/zapier-0a1b2c3d/lib/a.js")
      "/tmp/zapier-0a1b2c3d" "/home/me/app/build/build.zip"
      (["index.js"] ++ "lib/a.js" :: ["package.json"]) world0
      = (Rejected (External ZipC "File not found: /tmp/zapier-0a1b2c3d/lib/a.js"), w') ∧
    archives w' = archives world0 ∧
    calls w' = [AddLocalFile "/tmp/zapier-0a1b2c3d/index.js" None;
                AddLocalFile "/tmp/zapier-0a1b2c3d/lib/a.js" (Some "lib")].
Proof.
  destruct (pack_stops_at_first_failure
              (scenario_missing_file "/tmp/zapier-0a1b2c3d/lib/a.js")
              "/tmp/zapier-0a1b2c3d" "/home/me/app/build/build.zip"
              ["index.js"] "lib/a.js" ["package.json"]
              "File not found: /tmp/zapier-0a1b2c3d/lib/a.js" world0)
    as (w' & Hrun & Harch & Hcalls & _).
  - intros q Hq. apply list_elem_of_In in Hq. simpl in Hq.
    destruct Hq as [<-|[]]. reflexivity.
  - reflexivity.
  - exists w'. split_and!; [exact Hrun | exact Harch | exact Hcalls].
Defined.

(** A resolved [makeZip], call by call. *)
Lemma makeZip_resolved (env : Env) (dir zipPath : string) (w w' : World) :
  makeZip env dir zipPath w = (Resolved tt, w') →
  ∃ smartPaths dumbPaths,
    browserifyFiles env dir w
      = (Resolved smartPaths, logged (Bundle (dir +:+ "/zapierwrapper.js")) w) ∧
    listFiles env dir (logged (Bundle (dir +:+ "/zapierwrapper.js")) w)
      = (Resolved dumbPaths,
         logged (Walk dir) (logged (Bundle (dir +:+ "/zapierwrapper.js")) w)) ∧
    dirs w' = dirs w ∧
    archives w' =
      <[zipPath := entryFor env dir
                     <$> finalPaths (disable_dependency_detection env)
                           smartPaths dumbPaths]> (archives w) ∧
    calls w' =
      calls w ++ [Bundle (dir +:+ "/zapierwrapper.js"); Walk dir]
              ++ ((λ e : ZipEntry, AddLocalFile e.1 e.2)
                    <$> (entryFor env dir
                           <$> finalPaths (disable_dependency_detection env)
                                 smartPaths dumbPaths))
              ++ [WriteZip zipPath].
Proof.
  unfold makeZip, then_. rewrite browserifyFiles_run.
  destruct (bundle_out env _) as [[d|d]|rows]; [done.. |].
  rewrite listFiles_run. destruct (walk_out env dir) as [d|items]; [done |].
  cbv [resolve]. unfold pack, then_.
  destruct (addAll env dir [] _ _) as [[zip|e|e] w3] eqn:Hadd; [| done..].
  pose proof Hadd as (-> & _ & _ & Hok)%addAll_resolved.
  rewrite (addAll_ok _ _ _ _ _ Hok) in Hadd. injection Hadd as <-.
  exec; [done |]. intros [= <-]. eexists _, _.
  split_and!; [reflexivity | reflexivity | done | done |].
  unfold logged. cbn [calls]. by rewrite <- !app_assoc.
Qed.



(** ** Where the packager stores a file *)

Lemma occurs_slash_cons (c : ascii) (s : string) :
  occurs "/" (String c s) = false →
  Ascii.eqb c "/" = false ∧ occurs "/" s = false.
Proof.
  cbn [occurs String.prefix]. intros [Hp Ho]%orb_false_iff. split; [| done].
  destruct (ascii_dec "/" c) as [<-|Hne]; [by rewrite prefix_empty in Hp |].
  apply Ascii.eqb_neq. congruence.
Qed.

Lemma noslash_chars (s : string) :
  occurs "/" s = false →
  Forall (λ c, Ascii.eqb c "/" = false) (String.list_ascii_of_string s).
Proof.
  induction s as [|c s IH]; intros H; cbn [String.list_ascii_of_string].
  - constructor.
  - apply occurs_slash_cons in H as [Hc Hs]. constructor; auto.
Qed.

Lemma dirname_scan_noslash (l : list ascii) (i : nat) (m : bool) :
  Forall (λ c, Ascii.eqb c "/" = false) l → Js.dirname_scan l i m = None.
Proof.
  intros H. revert i m. induction H as [|c l Hc _ IH]; intros i m; [done |].
  cbn [Js.dirname_scan]. rewrite Hc. apply IH.
Qed.

Lemma dirname_scan_slash (l tl : list ascii) (i : nat) :
  Forall (λ c, Ascii.eqb c "/" = false) l →
  Js.dirname_scan (l ++ "/"%char :: tl) i false = Some (i - length l).
Proof.
  intros H. revert i. induction H as [|c l Hc _ IH]; intros i.
  - cbn. f_equal. lia.
  - cbn [app Js.dirname_scan]. rewrite Hc, IH. cbn [length]. f_equal. lia.
Qed.

Lemma chars_app (a b : string) :
  String.list_ascii_of_string (a +:+ b)
    = String.list_ascii_of_string a ++ String.list_ascii_of_string b.
Proof.
  induction a as [|c a IH]; [done |].
  change (String c a +:+ b) with (String c (a +:+ b)).
  cbn [String.list_ascii_of_string app]. by rewrite IH.
Qed.

Lemma chars_length (s : string) :
  length (String.list_ascii_of_string s) = String.length s.
Proof. induction s as [|c s IH]; [done |]. cbn. by rewrite IH. Qed.

Lemma substring_prefix (d x : string) :
  String.substring 0 (String.length d) (d +:+ x) = d.
Proof. apply String.prefix_correct, prefix_app. Qed.

(** A path without a slash has the directory component ".". *)
Lemma dirname_noslash (name : string) :
  occurs "/" name = false → Js.dirname name = ".".
Proof.
  intros H. destruct name as [|c0 rest]; [done |].
  apply occurs_slash_cons in H as [Hc Hrest].
  unfold Js.dirname. rewrite dirname_scan_noslash, Hc; [done |].
  by apply Forall_reverse, noslash_chars.
Qed.

Lemma dirname_scan_name (l tl : list ascii) (i : nat) (m : bool) :
  Forall (λ c, Ascii.eqb c "/" = false) l → l ≠ [] →
  Js.dirname_scan (l ++ "/"%char :: tl) i m = Some (i - length l).
Proof.
  intros H Hne. destruct H as [|c l Hc Hl]; [done |].
  cbn [app Js.dirname_scan]. rewrite Hc, (dirname_scan_slash _ _ _ Hl).
  cbn [length]. f_equal. lia.
Qed.

(** A file name below a directory path that does not end in a slash has
    that path as its directory component. *)
Lemma dirname_nested (d name : string) :
  d ≠ "" → Js.endsWith d "/" = false →
  name ≠ "" → occurs "/" name = false →
  Js.dirname (d +:+ "/" +:+ name) = d.
Proof.
  intros Hd Hend Hname Hfree. destruct d as [|c0 d]; [done |].
  change (String c0 d +:+ "/" +:+ name) with (String c0 (d +:+ "/" +:+ name)).
  assert (Js.dirname_scan
            (reverse (String.list_ascii_of_string (d +:+ "/" +:+ name)))
            (String.length (d +:+ "/" +:+ name)) true
          = Some (S (String.length d))) as Hscan.
  { rewrite chars_app.
    change (String.list_ascii_of_string ("/" +:+ name))
      with ("/"%char :: String.list_ascii_of_string name).
    rewrite reverse_app, reverse_cons, <- app_assoc.
    change (["/"%char] ++ ?tl) with ("/"%char :: tl).
    rewrite dirname_scan_name.
    - f_equal. rewrite length_reverse, chars_length, !length_app_str.
      cbn [String.length]. lia.
    - by apply Forall_reverse, noslash_chars.
    - intros E. apply (f_equal length) in E.
      rewrite length_reverse, chars_length in E. by destruct name. }
  unfold Js.dirname. rewrite Hscan. cbv zeta.
  destruct (Ascii.eqb c0 "/" && Nat.eqb (S (String.length d)) 1) eqn:Hroot.
  - apply andb_true_iff in Hroot as [Hc0 Hlen].
    apply Ascii.eqb_eq in Hc0 as ->. apply Nat.eqb_eq in Hlen.
    destruct d; [done | cbn in Hlen; lia].
  - change (S (String.length d)) with (String.length (String c0 d)).
    change (String c0 (d +:+ "/" +:+ name)) with (String c0 d +:+ "/" +:+ name).
    apply substring_prefix.
Qed.

(** X8: the archive keeps the layout of the file list.  When every add and
    the write succeed, the archive has one entry per path; a path without a
    slash is stored at the archive root, and a file name below a directory
    path (other than ".", and not ending in a slash) is stored under exactly
    that directory path. *)
Theorem pack_keeps_layout (env : Env) (dir zipPath : string) (paths : list string)
  (w : World) :
  (∀ p, p ∈ paths → addLocalFile_out env (path_join env dir p) = None) →
  writeZip_out env zipPath = None →
  ∃ w' entries,
    pack env dir zipPath paths w = (Resolved tt, w') ∧
    archives w' !! zipPath = Some entries ∧
    length entries = length paths ∧
    ∀ p, p ∈ paths →
      (occurs "/" p = false → (path_join env dir p, None) ∈ entries) ∧
      (∀ d name,
         p = d +:+ "/" +:+ name → d ≠ "" → d ≠ "." → Js.endsWith d "/" = false →
         name ≠ "" → occurs "/" name = false →
         (path_join env dir p, Some d) ∈ entries).
Proof.
  intros Hadd Hwrite. unfold pack, then_.
  rewrite (addAll_ok env dir paths [] w Hadd). exec_head. rewrite Hwrite.
  cbn beta iota zeta. eexists _, (entryFor env dir <$> paths).
  split_and!.
  - reflexivity.
  - unfold logged. cbn [archives app]. apply lookup_insert_eq.
  - apply length_fmap.
  - intros p Hp. split.
    + intros Hfree. apply list_elem_of_fmap. exists p. split; [| done].
      unfold entryFor. by rewrite (dirname_noslash _ Hfree).
    + intros d name -> Hd Hdot Hend Hname Hfree.
      apply list_elem_of_fmap. exists (d +:+ "/" +:+ name). split; [| done].
      unfold entryFor. rewrite (dirname_nested _ _ Hd Hend Hname Hfree).
      by apply String.eqb_neq in Hdot as ->.
Qed.

Lemma pack_keeps_layout_witness :
  ∃ w' entries,
    pack demo "/tmp/zapier-0a1b2c3d" "/home/me/app/build/build.zip"
      ["index.js"; "node_modules/left-pad/index.js"] world0 = (Resolved tt, w') ∧
    archives w' !! "/home/me/app/build/build.zip" = Some entries ∧
    length entries = 2 ∧
    ("/tmp/zapier-0a1b2c3d/index.js", None) ∈ entries ∧
    ("/tmp/zapier-0a1b2c3d/node_modules/left-pad/index.js",
     Some "node_modules/left-pad") ∈ entries.
Proof.
  destruct (pack_keeps_layout demo "/tmp/zapier-0a1b2c3d" "/home/me/app/build/build.zip"
              ["index.js"; "node_modules/left-pad/index.js"] world0)
    as (w' & entries & Hrun & Harch & Hlen & Hlayout).
  - intros p _. reflexivity.
  - reflexivity.
  - exists w', entries. split_and!; [exact Hrun | exact Harch | exact Hlen | |].
    + destruct (Hlayout "index.js") as [Hroot _];
        [apply list_elem_of_In; simpl; tauto |].
      apply Hroot. reflexivity.
    + destruct (Hlayout "node_modules/left-pad/index.js") as [_ Hnested];
        [apply list_elem_of_In; simpl; tauto |].
      apply (Hnested "node_modules/left-pad" "index.js");
        [reflexivity | discriminate | discriminate | reflexivity | discriminate
        | reflexivity].
Defined.

(** ** The order of a build *)

(** Stages 1 to 6 when they all succeed, call by call. *)
Lemma stages_1_6_resolved (env : Env) (wdir tmpDir : string) (w w1 : World) :
  stages_1_6 env wdir tmpDir w = (Resolved tt, w1) →
  ∃ buf def,
    readFile_out env
      (tmpDir +:+ "/node_modules/" +:+ PLATFORM_PACKAGE env +:+ "/include/zapierwrapper.js")
      = inr buf ∧
    handler_out env tmpDir definitionEvent = inr def ∧
    dirs w1 = {[tmpDir]} ∪ dirs w ∧
    archives w1 = archives w ∧
    calls w1 =
      calls w ++
      [EnsureDir tmpDir;
       CopyDir wdir tmpDir;
       RunCommand "npm" ["install"; "--production"] tmpDir;
       ReadFile (tmpDir +:+ "/node_modules/" +:+ PLATFORM_PACKAGE env
                   +:+ "/include/zapierwrapper.js");
       WriteFile (tmpDir +:+ "/zapierwrapper.js") buf;
       Handler tmpDir validateEvent;
       Handler tmpDir definitionEvent;
       WriteFile (tmpDir +:+ "/definition.json") (prettyJSONstringify env (results def));
       RunCommand "find" ["."; "-exec"; "touch"; "-t"; "201601010000"; "{}"; "+"] tmpDir].
Proof.
  unfold validateEvent, definitionEvent. exec.
  all: try done.
  all: intros [= <-]; eexists _, _; split_and!; try done.
  all: unfold logged; cbn [calls]; by rewrite <- !app_assoc.
Qed.

(** X9: a build that resolves has made exactly these calls, in this order:
    create the working directory, copy the project, install, read and write
    the bootstrap wrapper, validate, extract the definition and write it,
    normalise the timestamps, traverse, scan, add each file of the list
    chosen from what the resolver and the scanner returned, in the order of
    that list, write the archive, and remove the working directory last. *)
Theorem build_stage_order (env : Env) (zipPath wdir : option string) (w w' : World)
  (z : string) :
  build env zipPath wdir w = (Resolved z, w') →
  ∃ buf def smartPaths dumbPaths w1 w2 w3,
    readFile_out env
      (tmpDirOf env +:+ "/node_modules/" +:+ PLATFORM_PACKAGE env
         +:+ "/include/zapierwrapper.js") = inr buf ∧
    handler_out env (tmpDirOf env) definitionEvent = inr def ∧
    stages_1_6 env (Js.or_default wdir (process_cwd env)) (tmpDirOf env) w
      = (Resolved tt, w1) ∧
    browserifyFiles env (tmpDirOf env) w1 = (Resolved smartPaths, w2) ∧
    listFiles env (tmpDirOf env) w2 = (Resolved dumbPaths, w3) ∧
    calls w' =
      calls w ++
      [EnsureDir (tmpDirOf env);
       CopyDir (Js.or_default wdir (process_cwd env)) (tmpDirOf env);
       RunCommand "npm" ["install"; "--production"] (tmpDirOf env);
       ReadFile (tmpDirOf env +:+ "/node_modules/" +:+ PLATFORM_PACKAGE env
                   +:+ "/include/zapierwrapper.js");
       WriteFile (tmpDirOf env +:+ "/zapierwrapper.js") buf;
       Handler (tmpDirOf env) validateEvent;
       Handler (tmpDirOf env) definitionEvent;
       WriteFile (tmpDirOf env +:+ "/definition.json")
         (prettyJSONstringify env (results def));
       RunCommand "find" ["."; "-exec"; "touch"; "-t"; "201601010000"; "{}"; "+"]
         (tmpDirOf env);
       Bundle (tmpDirOf env +:+ "/zapierwrapper.js");
       Walk (tmpDirOf env)]
      ++ ((λ e : ZipEntry, AddLocalFile e.1 e.2)
            <$> (entryFor env (tmpDirOf env)
                   <$> finalPaths (disable_dependency_detection env)
                         smartPaths dumbPaths))
      ++ [WriteZip (Js.or_default wdir (process_cwd env) +:+ "/" +:+ z);
          RemoveDir (tmpDirOf env)].
Proof.
  intros Hbuild. pose proof (build_resolves _ _ _ _ _ _ Hbuild) as ->.
  revert Hbuild. unfold build, then_. cbv zeta.
  destruct (stages_1_6 env _ _ w) as [[[]|e|e] w1] eqn:Hst; [| done..].
  destruct (makeZip env _ _ w1) as [[[]|e|e] w2] eqn:Hzip; [| done..].
  pose proof Hst as (buf & def & Hbuf & Hdef & _ & _ & Hc1)%stages_1_6_resolved.
  apply makeZip_resolved in Hzip as (smart & dumb & Hsmart & Hdumb & _ & _ & Hc2).
  exec; [done |]. intros [= <-]. eexists buf, def, smart, dumb, w1, _, _.
  split_and!; [exact Hbuf | exact Hdef | reflexivity | exact Hsmart | exact Hdumb |].
  unfold logged. cbn [calls]. rewrite Hc2, Hc1.
  rewrite <- !app_assoc. reflexivity.
Qed.

Lemma build_stage_order_witness :
  calls (build demo None None world0).2 =
    [EnsureDir "/tmp/zapier-0a1b2c3d";
     CopyDir "/home/me/app" "/tmp/zapier-0a1b2c3d";
     RunCommand "npm" ["install"; "--production"] "/tmp/zapier-0a1b2c3d";
     ReadFile "/tmp/zapier-0a1b2c3d/node_modules/zapier-platform-core/include/zapierwrapper.js";
     WriteFile "/tmp/zapier-0a1b2c3d/zapierwrapper.js" "module.exports = {};";
     Handler "/tmp/zapier-0a1b2c3d" validateEvent;
     Handler "/tmp/zapier-0a1b2c3d" definitionEvent;
     WriteFile "/tmp/zapier-0a1b2c3d/definition.json" "{}";
     RunCommand "find" ["."; "-exec"; "touch"; "-t"; "201601010000"; "{}"; "+"]
       "/tmp/zapier-0a1b2c3d";
     Bundle "/tmp/zapier-0a1b2c3d/zapierwrapper.js";
     Walk "/tmp/zapier-0a1b2c3d";
     AddLocalFile "/tmp/zapier-0a1b2c3d/definition.json" None;
     AddLocalFile "/tmp/zapier-0a1b2c3d/index.js" None;
     AddLocalFile "/tmp/zapier-0a1b2c3d/lib/a.js" (Some "lib");
     AddLocalFile "/tmp/zapier-0a1b2c3d/package.json" None;
     AddLocalFile "/tmp/zapier-0a1b2c3d/zapierwrapper.js" None;
     WriteZip "/home/me/app/build/build.zip";
     RemoveDir "/tmp/zapier-0a1b2c3d"].
Proof.
  destruct (build_stage_order demo None None world0 (build demo None None world0).2
              "build/build.zip")
    as (buf & def & smart & dumb & w1 & w2 & w3 & Hbuf & Hdef & Hst & Hsmart & Hdumb
        & Hcalls).
  - by vm_compute.
  - rewrite Hcalls. injection Hbuf as <-. injection Hdef as <-.
    vm_compute in Hst. injection Hst as <-.
    vm_compute in Hsmart. injection Hsmart as <- <-.
    vm_compute in Hdumb. injection Hdumb as <- <-.
    reflexivity.
Defined.

(** ** How a build fails, and where its archive lands *)

(** X10: when the working directory is created and the project copied but
    the installation exits non-zero, the build rejects with the runner's own
    error, carrying the captured output unchanged, right after that call: the
    bootstrap wrapper is not read and the handler is not invoked. *)
Theorem build_install_failure (env : Env) (zipPath wdir : option string) (w : World)
  (output : string) :
  ensureDir_out env (tmpDirOf env) = None →
  copyDir_out env (Js.or_default wdir (process_cwd env)) (tmpDirOf env) = None →
  runCommand_out env "npm" ["install"; "--production"] (tmpDirOf env) = Some output →
  build env zipPath wdir w =
    (Rejected (External RunCommandC output),
     mkWorld ({[tmpDirOf env]} ∪ dirs w) (archives w)
       (calls w ++ [EnsureDir (tmpDirOf env);
                    CopyDir (Js.or_default wdir (process_cwd env)) (tmpDirOf env);
                    RunCommand "npm" ["install"; "--production"] (tmpDirOf env)])).
Proof.
  intros Hensure Hcopy Hinstall. unfold build. cbv zeta.
  unfold then_ at 1 2 3. exec_head. rewrite Hensure. cbn beta iota zeta.
  rewrite Hcopy. cbn beta iota zeta. rewrite Hinstall. cbn beta iota zeta.
  unfold logged. cbn [dirs archives calls]. by rewrite <- !app_assoc.
Qed.

Lemma build_install_failure_witness :
  build install_fails None None world0 =
    (Rejected (External RunCommandC "npm ERR! code E404"),
     mkWorld ({[tmpDirOf install_fails]} ∪ dirs world0) (archives world0)
       (calls world0 ++
          [EnsureDir (tmpDirOf install_fails);
           CopyDir (Js.or_default None (process_cwd install_fails))
             (tmpDirOf install_fails);
           RunCommand "npm" ["install"; "--production"] (tmpDirOf install_fails)])).
Proof.
  apply (build_install_failure install_fails None None world0 "npm ERR! code E404");
    reflexivity.
Defined.

(** X12: a build that resolves returns the archive path as given (or the
    default), relative, while the archive itself is written below the project
    directory, at the project directory, a slash and that path; the working
    directory is gone and no other archive has changed. *)
Theorem build_archive_destination (env : Env) (zipPath wdir : option string)
  (w w' : World) (z : string) :
  build env zipPath wdir w = (Resolved z, w') →
  z = Js.or_default zipPath (BUILD_PATH env) ∧
  is_Some (archives w' !! (Js.or_default wdir (process_cwd env) +:+ "/" +:+ z)) ∧
  (∀ other, other ≠ Js.or_default wdir (process_cwd env) +:+ "/" +:+ z →
            archives w' !! other = archives w !! other) ∧
  (tmpDirOf env ∉ dirs w').
Proof.
  intros Hbuild. pose proof (build_resolves _ _ _ _ _ _ Hbuild) as ->.
  split; [done |]. revert Hbuild. unfold build, then_. cbv zeta.
  destruct (stages_1_6 env _ _ w) as [[[]|e|e] w1] eqn:Hst; [| done..].
  destruct (makeZip env _ _ w1) as [[[]|e|e] w2] eqn:Hzip; [| done..].
  apply stages_1_6_resolved in Hst as (_ & _ & _ & _ & _ & Ha1 & _).
  apply makeZip_resolved in Hzip as (smart & dumb & _ & _ & _ & Ha2 & _).
  exec; [done |]. intros [= <-]. unfold logged. cbn [archives dirs].
  rewrite Ha2, Ha1. split_and!.
  - rewrite lookup_insert_eq. eauto.
  - intros other Hne. by rewrite lookup_insert_ne.
  - rewrite elem_of_difference, elem_of_singleton. tauto.
Qed.

Lemma build_archive_destination_witness :
  "build/build.zip" = Js.or_default None (BUILD_PATH demo) ∧
  is_Some (archives (build demo None None world0).2
             !! (Js.or_default None (process_cwd demo) +:+ "/" +:+ "build/build.zip")) ∧
  (∀ other, other ≠ Js.or_default None (process_cwd demo) +:+ "/" +:+ "build/build.zip" →
            archives (build demo None None world0).2 !! other = archives world0 !! other) ∧
  (tmpDirOf demo ∉ dirs (build demo None None world0).2).
Proof.
  apply (build_archive_destination demo None None world0
           (build demo None None world0).2 "build/build.zip").
  by vm_compute.
Defined.

(** ** What a build asks of the app *)

Lemma stages_1_6_handler_calls (env : Env) (wdir tmpDir : string) (w : World) :
  appends (handler_call_ok tmpDir) w (stages_1_6 env wdir tmpDir w).2.
Proof.
  exec.
  all: unfold appends, logged; cbn [snd calls];
    rewrite <- ?app_assoc; eexists; (split; [reflexivity |]); cbn [app].
  all: repeat (apply Forall_cons; split;
                 [unfold handler_call_ok; first [exact I | split_and!; auto] |]);
    by apply Forall_nil.
Qed.

(** X13: whatever the outcome of a build, every handler invocation it makes
    is on the working directory, for the command [validate] or [definition],
    marked as coming from the CLI and with promise patching switched off. *)
Theorem build_handler_calls (env : Env) (zipPath wdir : option string) (w : World) :
  appends (handler_call_ok (tmpDirOf env)) w (build env zipPath wdir w).2.
Proof.
  unfold build, then_. cbv zeta.
  pose proof (stages_1_6_handler_calls env (Js.or_default wdir (process_cwd env))
                (tmpDirOf env) w) as H1.
  destruct (stages_1_6 env _ _ w) as [[[]|e|e] w1]; [| exact H1..].
  pose proof (makeZip_spec env (tmpDirOf env)
                (Js.or_default wdir (process_cwd env) +:+ "/"
                   +:+ Js.or_default zipPath (BUILD_PATH env)) w1) as H2.
  destruct (makeZip env _ _ w1) as [[[]|e|e] w2]; destruct H2 as (_ & H2 & _).
  - eapply appends_trans; [exact H1 |].
    eapply appends_trans; [eapply appends_weaken; [| exact H2]; by intros [] |].
    exec; log_grows.
  - eapply appends_trans; [exact H1 |].
    cbn [snd]. eapply appends_weaken; [| exact H2]. by intros [].
  - eapply appends_trans; [exact H1 |].
    cbn [snd]. eapply appends_weaken; [| exact H2]. by intros [].
Qed.

(** ** Defaults of the upload coordinator *)

Lemma or_default_dot (appDir : option string) (cwd : string) :
  Js.or_default (Some (Js.or_default appDir ".")) cwd = Js.or_default appDir ".".
Proof.
  unfold Js.or_default. destruct appDir as [s|]; [| done].
  destruct (String.eqb_spec s "") as [->|Hs]; [done |].
  by apply String.eqb_neq in Hs as ->.
Qed.

(** * The entry point *)

Example entry_help_flag :
  Cli.routed Cli.sample ["node"; "zapier.js"; "invitees"; "--help"]
    = ("help", ["invitees"]).
Proof. by vm_compute. Qed.

Example entry_unknown :
  Cli.output (Cli.entry Cli.sample ["node"; "zapier.js"; "frobnicate"])
    = [Cli.OnExitClearSpinner; Cli.CreateContext "frobnicate" [];
       Cli.Line "frobnicate not a command! Try running `zapier help`?"].
Proof. by vm_compute. Qed.

Lemma invoke_not_line (env : Cli.Env) (c : string) (a errors : list string) :
  Cli.Invoke c a ∉ (λ error, Cli.Line (" " +:+ Cli.red env error)) <$> errors.
Proof. intros (e & Heq & _)%list_elem_of_fmap. discriminate. Qed.

Lemma invoke_not_failureLine (env : Cli.Env) (debug : bool) (err : Cli.JsErr)
  (c : string) (a : list string) :
  Cli.Invoke c a ∉ Cli.failureLines env debug err.
Proof.
  unfold Cli.failureLines. destruct debug; rewrite list_elem_of_In; simpl;
    intuition discriminate.
Qed.

Lemma invoke_not_before (env : Cli.Env) (argv : list string) (c c' : string)
  (a a' : list string) :
  Cli.Invoke c a ∉
    [Cli.OnExitClearSpinner] ++
    (if Cli.DEBUG env
     then [Cli.ConsoleLog ["running in:"; Cli.process_cwd env];
           Cli.ConsoleLogArgv argv;
           Cli.ConsoleLog [Cli.nl +:+ "--------------------------------------------------"
                             +:+ Cli.nl +:+ Cli.nl]]
     else []) ++ [Cli.CreateContext c' a'].
Proof.
  destruct (Cli.DEBUG env); rewrite list_elem_of_In; simpl; intuition discriminate.
Qed.

(** When a command function is invoked, and with what. *)
Lemma entry_invoke_iff (env : Cli.Env) (argv : list string) (c : string)
  (a : list string) :
  Cli.Invoke c a ∈ Cli.output (Cli.entry env argv) ↔
  Cli.isValidNodeVersion env = true ∧
  Cli.routed env argv = (c, a) ∧
  ∃ cmd,
    Cli.commands env c = Some cmd ∧
    Cli.enforceArgSpec env (Cli.argsSpec cmd)
      (Cli.argOptsSpec cmd ∪ Cli.globalArgOptsSpec env) a (Cli.parsed env argv).2 = [].
Proof.
  unfold Cli.entry.
  destruct (Cli.isValidNodeVersion env); cbn [negb].
  2: { cbn [Cli.output]. rewrite list_elem_of_In. simpl.
       split; [intuition discriminate | intros [? _]; discriminate]. }
  destruct (Cli.routed env argv) as [c' a'] eqn:Hroute. cbv zeta.
  pose proof (invoke_not_before env argv c c' a a') as Hbefore.
  set (before := [Cli.OnExitClearSpinner] ++ _ ++ [Cli.CreateContext c' a']) in *.
  clearbody before.
  destruct (Cli.commands env c') as [cmd|] eqn:Hcmd.
  2: { cbn [Cli.output]. rewrite elem_of_app. split.
       - intros [H|H]; [done |].
         apply list_elem_of_In in H. simpl in H. intuition discriminate.
       - intros (_ & [= -> ->] & cmd & Hc & _). congruence. }
  destruct (Cli.enforceArgSpec env _ _ a' _) as [|e errors] eqn:Herr.
  2: { cbn [Cli.output]. rewrite !elem_of_app. split.
       - intros [H|[H|H]]; [done | by apply invoke_not_line in H |].
         apply list_elem_of_In in H. simpl in H. intuition discriminate.
       - intros (_ & [= -> ->] & cmd' & Hc & He). congruence. }
  assert (Cli.Invoke c a = Cli.Invoke c' a' ↔
          true = true ∧ (c', a') = (c, a) ∧
          ∃ cmd0, Cli.commands env c = Some cmd0 ∧
                  Cli.enforceArgSpec env (Cli.argsSpec cmd0)
                    (Cli.argOptsSpec cmd0 ∪ Cli.globalArgOptsSpec env) a
                    (Cli.parsed env argv).2 = []) as Hmain.
  { split.
    - intros [= -> ->]. split_and!; try done. eauto.
    - intros (_ & [= -> ->] & _). done. }
  rewrite <- Hmain.
  destruct (Cli.run cmd a') as [err|]; cbn [Cli.output]; rewrite !elem_of_app.
  - split.
    + intros [H|[H|H]]; [done | | by apply invoke_not_failureLine in H].
      apply list_elem_of_In in H. simpl in H.
      destruct H as [H|[H|[]]]; [by symmetry | discriminate].
    + intros ->. right. left. by left.
  - split.
    + intros [H|H]; [done |].
      apply list_elem_of_In in H. simpl in H.
      destruct H as [H|[H|[H|[]]]]; [by symmetry | discriminate..].
    + intros ->. right. by left.
Qed.

(** X15: the entry point invokes a command function exactly when the node
    version is valid, the routed command is known, and the argument check
    reports no error; it then invokes that command with the routed
    arguments. *)
Theorem entry_runs_command_iff (env : Cli.Env) (argv : list string) (c : string)
  (a : list string) :
  Cli.Invoke c a ∈ Cli.output (Cli.entry env argv) ↔
  Cli.isValidNodeVersion env = true ∧
  Cli.routed env argv = (c, a) ∧
  ∃ cmd,
    Cli.commands env c = Some cmd ∧
    Cli.enforceArgSpec env (Cli.argsSpec cmd)
      (Cli.argOptsSpec cmd ∪ Cli.globalArgOptsSpec env) a (Cli.parsed env argv).2 = [].
Proof. apply entry_invoke_iff. Qed.

(** X16: with the help flag set, or with no positional argument at all, the
    command routed to is [help] and every positional argument becomes an
    argument of it; no other command can be invoked. *)
Theorem entry_help_swap (env : Cli.Env) (argv : list string) :
  Cli.truthy ((Cli.parsed env argv).2 !! "help") = true ∨ (Cli.parsed env argv).1 = [] →
  Cli.routed env argv = ("help", (Cli.parsed env argv).1) ∧
  ∀ c a, Cli.Invoke c a ∈ Cli.output (Cli.entry env argv) →
         c = "help" ∧ a = (Cli.parsed env argv).1.
Proof.
  intros Hhelp.
  assert (Cli.routed env argv = ("help", (Cli.parsed env argv).1)) as Hroute.
  { unfold Cli.routed. destruct (Cli.parsed env argv) as [args argOpts].
    cbn [fst snd] in *.
    destruct Hhelp as [-> | ->]; [done |]. by rewrite orb_true_r. }
  split; [exact Hroute |].
  intros c a (_ & Hr & _)%entry_invoke_iff. rewrite Hroute in Hr.
  by injection Hr as <- <-.
Qed.

Lemma entry_help_swap_witness :
  Cli.routed Cli.sample ["node"; "zapier.js"; "invitees"; "--help"]
    = ("help", ["invitees"]).
Proof.
  destruct (entry_help_swap Cli.sample ["node"; "zapier.js"; "invitees"; "--help"])
    as [Hroute _].
  - left. by vm_compute.
  - rewrite Hroute. by vm_compute.
Defined.

(** X17: an unknown command is reported in one line and nothing is run: the
    call returns without invoking any command function, the help command
    included. *)
Theorem entry_unknown_command (env : Cli.Env) (argv : list string) :
  Cli.isValidNodeVersion env = true →
  Cli.commands env (Cli.routed env argv).1 = None →
  Cli.ending (Cli.entry env argv) = Cli.Returned ∧
  last (Cli.output (Cli.entry env argv))
    = Some (Cli.Line ((Cli.routed env argv).1
                        +:+ " not a command! Try running `zapier help`?")) ∧
  ∀ c a, Cli.Invoke c a ∉ Cli.output (Cli.entry env argv).
Proof.
  intros Hvalid Hnone. split_and!.
  - unfold Cli.entry. rewrite Hvalid. cbn [negb].
    destruct (Cli.routed env argv) as [c a]. cbn [fst] in Hnone.
    cbv zeta. by rewrite Hnone.
  - unfold Cli.entry. rewrite Hvalid. cbn [negb].
    destruct (Cli.routed env argv) as [c a]. cbn [fst] in Hnone.
    cbv zeta. rewrite Hnone. cbn [Cli.output fst].
    rewrite !app_assoc. apply last_snoc.
  - intros c a (_ & Hr & cmd & Hc & _)%entry_invoke_iff.
    rewrite Hr in Hnone. cbn [fst] in Hnone. congruence.
Qed.

Lemma entry_unknown_command_witness :
  Cli.ending (Cli.entry Cli.sample ["node"; "zapier.js"; "frobnicate"]) = Cli.Returned ∧
  last (Cli.output (Cli.entry Cli.sample ["node"; "zapier.js"; "frobnicate"]))
    = Some (Cli.Line ((Cli.routed Cli.sample ["node"; "zapier.js"; "frobnicate"]).1
                        +:+ " not a command! Try running `zapier help`?")) ∧
  ∀ c a, Cli.Invoke c a ∉ Cli.output (Cli.entry Cli.sample ["node"; "zapier.js"; "frobnicate"]).
Proof.
  apply (entry_unknown_command Cli.sample ["node"; "zapier.js"; "frobnicate"]);
    by vm_compute.
Defined.

(** X18: a command's rejection is never swallowed.  The call ends with an
    unhandled rejection exactly when the routed command was invoked and
    rejected, and it is that very error; before rethrowing, the spinner is
    cleared and the error is shown: its stack in debug mode (the constant or
    the [--debug] option), its message in red otherwise. *)
Theorem entry_failure_surfaces (env : Cli.Env) (argv : list string) (err : Cli.JsErr) :
  Cli.ending (Cli.entry env argv) = Cli.Settled (Some err) ↔
  ∃ c a cmd,
    Cli.Invoke c a ∈ Cli.output (Cli.entry env argv) ∧
    Cli.commands env c = Some cmd ∧
    Cli.run cmd a = Some err ∧
    Cli.ClearSpinner ∈ Cli.output (Cli.entry env argv) ∧
    (if Cli.DEBUG env || Cli.truthy ((Cli.parsed env argv).2 !! "debug")
     then Cli.Line (Cli.stack err)
     else Cli.Line (Cli.red env "Error!" +:+ " " +:+ Cli.red env (Cli.message err)))
      ∈ Cli.output (Cli.entry env argv).
Proof.
  split.
  - unfold Cli.entry.
    destruct (Cli.isValidNodeVersion env); cbn [negb]; [| done].
    destruct (Cli.routed env argv) as [c a] eqn:Hroute. cbv zeta.
    destruct (Cli.commands env c) as [cmd|] eqn:Hcmd; [| done].
    destruct (Cli.enforceArgSpec env _ _ a _) as [|e errors]; [| done].
    destruct (Cli.run cmd a) as [err'|] eqn:Hrun; [| done].
    cbn [Cli.ending Cli.output]. intros [= ->]. exists c, a, cmd.
    split_and!; try done.
    + rewrite !elem_of_app. right. left. by left.
    + rewrite !elem_of_app. right. left. right. by left.
    + rewrite !elem_of_app. right. right. unfold Cli.failureLines.
      destruct (Cli.DEBUG env || _); rewrite list_elem_of_In; simpl; tauto.
  - intros (c & a & cmd & (Hvalid & Hroute & cmd' & Hcmd' & Herr)%entry_invoke_iff
              & Hcmd & Hrun & _).
    assert (cmd' = cmd) as -> by congruence.
    unfold Cli.entry. rewrite Hvalid, Hroute. cbn [negb]. cbv zeta.
    by rewrite Hcmd, Herr, Hrun.
Qed.

(** * More on the resolver, the cleanup and the upload *)

Lemma omap_stripPath_Forall2 (cwd : string) (l : list string) :
  cwd ≠ "" →
  Forall2 (λ f q, stripPath cwd f = Some q) l (omap (stripPath cwd) l).
Proof.
  intros Hne. induction l as [|f l IH]; [constructor |].
  change (omap (stripPath cwd) (f :: l))
    with (match stripPath cwd f with
          | Some y => y :: omap (stripPath cwd) l
          | None => omap (stripPath cwd) l
          end).
  destruct (stripPath_defined cwd f Hne) as [r Hr]. rewrite Hr.
  by constructor.
Qed.

(** X19: the resolver returns one path per row of the traversal, sorted: the
    stripped [row.file], or the stripped [row.id] where the row has no file.
    It neither drops nor merges rows, so a file the traversal reports twice
    is returned twice. *)
Theorem browserifyFiles_one_entry_per_row (env : Env) (entryPoint : string)
  (rows : list Row) (w : World) :
  bundle_out env (entryPoint +:+ "/zapierwrapper.js") = inr rows →
  ∃ out stripped,
    browserifyFiles env entryPoint w
      = (Resolved out, logged (Bundle (entryPoint +:+ "/zapierwrapper.js")) w) ∧
    Sorted String.le out ∧
    out ≡ₚ stripped ∧
    Forall2 (λ r q, stripPath (entryPoint +:+ "/") (rowPath r) = Some q) rows stripped ∧
    (∀ r, row_file r = None ∨ row_file r = Some "" → rowPath r = row_id r).
Proof.
  intros Hb.
  destruct (browserifyFiles_emits env entryPoint rows w Hb) as (out & Hrun & Hs & Hperm).
  exists out, (omap (stripPath (entryPoint +:+ "/")) (rowPath <$> rows)).
  split_and!; [done | done | done | |].
  - pose proof (omap_stripPath_Forall2 _ (rowPath <$> rows)
                  (slash_appended_nonempty entryPoint)) as H.
    apply Forall2_fmap_l in H. exact H.
  - intros r [Hf|Hf]; unfold rowPath; by rewrite Hf.
Qed.

Lemma browserifyFiles_one_entry_per_row_witness :
  ∃ out,
    browserifyFiles nested "/tmp/zapier-0a1b2c3d" world0
      = (Resolved out, logged (Bundle "/tmp/zapier-0a1b2c3d/zapierwrapper.js") world0) ∧
    length out = 3.
Proof.
  destruct (browserifyFiles_one_entry_per_row nested "/tmp/zapier-0a1b2c3d"
              nested_rows world0)
    as (out & stripped & Hrun & _ & Hperm & Hrows & _); [reflexivity |].
  exists out. split; [exact Hrun |].
  rewrite Hperm. symmetry. apply (Forall2_length _ _ _ Hrows).
Defined.

(** X20: a build whose cleanup fails rejects with the cleanup's error
    although everything else is done: the archive has been written to its
    destination, and the working directory is still there. *)
Theorem build_cleanup_failure_keeps_archive (env : Env) (zipPath wdir : option string)
  (w w' : World) (d : string) :
  build env zipPath wdir w = (Rejected (External RemoveDirC d), w') →
  removeDir_out env (tmpDirOf env) = Some d ∧
  is_Some (archives w' !! (Js.or_default wdir (process_cwd env) +:+ "/"
                             +:+ Js.or_default zipPath (BUILD_PATH env))) ∧
  tmpDirOf env ∈ dirs w'.
Proof.
  unfold build, then_. cbv zeta.
  pose proof (stages_1_6_spec env (Js.or_default wdir (process_cwd env))
                (tmpDirOf env) w) as H1.
  destruct (stages_1_6 env _ _ w) as [[[]|e|e] w1] eqn:Hst; [| | done].
  - pose proof (makeZip_spec env (tmpDirOf env)
                  (Js.or_default wdir (process_cwd env) +:+ "/"
                     +:+ Js.or_default zipPath (BUILD_PATH env)) w1) as H2.
    destruct (makeZip env _ _ w1) as [[[]|e|e] w2] eqn:Hzip; [| | done].
    + apply stages_1_6_resolved in Hst as (_ & _ & _ & _ & Hd1 & _).
      apply makeZip_resolved in Hzip as (smart & dumb & _ & _ & Hd2 & Ha2 & _).
      exec; [| done]. intros [= <- <-]. unfold logged. cbn [archives dirs].
      split_and!; [done | |].
      * rewrite Ha2, lookup_insert_eq. eauto.
      * rewrite Hd2, Hd1. apply elem_of_union_l. by apply elem_of_singleton.
    + destruct H2 as (_ & _ & _ & who & d' & -> & Hwho). intros [= -> ->].
      rewrite !list_elem_of_In in Hwho. simpl in Hwho. intuition discriminate.
  - intros [= -> ->]. destruct H1 as (_ & _ & _ & Hwho).
    rewrite !list_elem_of_In in Hwho. simpl in Hwho. intuition discriminate.
Qed.

Lemma build_cleanup_failure_keeps_archive_witness :
  removeDir_out cleanup_fails (tmpDirOf cleanup_fails) = Some "EBUSY: resource busy" ∧
  is_Some (archives (build cleanup_fails None None world0).2
             !! (Js.or_default None (process_cwd cleanup_fails) +:+ "/"
                   +:+ Js.or_default None (BUILD_PATH cleanup_fails))) ∧
  tmpDirOf cleanup_fails ∈ dirs (build cleanup_fails None None world0).2.
Proof.
  apply (build_cleanup_failure_keeps_archive cleanup_fails None None world0
           (build cleanup_fails None None world0).2 "EBUSY: resource busy").
  by vm_compute.
Defined.

(** X21: when [buildAndUploadDir] resolves, the upload was the last call
    and resolved with the same value; by then the archive had been written
    below the project directory and the working directory removed. *)
Theorem buildAndUploadDir_resolved (env : Env) (zipPath appDir : option string)
  (w w' : World) (v : jsval) :
  buildAndUploadDir env zipPath appDir w = (Resolved v, w') →
  upload_out env (Js.or_default zipPath (BUILD_PATH env)) (Js.or_default appDir ".")
    = inr v ∧
  last (calls w')
    = Some (Upload (Js.or_default zipPath (BUILD_PATH env)) (Js.or_default appDir ".")) ∧
  is_Some (archives w' !! (Js.or_default appDir "." +:+ "/"
                             +:+ Js.or_default zipPath (BUILD_PATH env))) ∧
  (tmpDirOf env ∉ dirs w').
Proof.
  unfold buildAndUploadDir. cbv zeta. exec_head.
  destruct (checkCredentials_out env); cbn beta iota zeta; [done |].
  destruct (build env _ _ (logged CheckCredentials w)) as [[z|e|e] w1] eqn:Hbuild;
    [| done..].
  pose proof Hbuild as Hdest. apply build_resolves in Hbuild.
  rewrite or_default_idem in Hbuild. subst z.
  destruct (upload_out env _ _) as [d|v'] eqn:Hup; [done |].
  intros [= <- <-]. split_and!; [done | | |].
  - unfold logged. cbn [calls]. apply last_snoc.
  - revert Hdest. unfold build, then_. cbv zeta. rewrite or_default_idem.
    rewrite (or_default_dot appDir (process_cwd env)).
    destruct (stages_1_6 env _ _ _) as [[[]|e|e] w2] eqn:Hst; [| done..].
    destruct (makeZip env _ _ w2) as [[[]|e|e] w3] eqn:Hzip; [| done..].
    apply makeZip_resolved in Hzip as (smart & dumb & _ & _ & _ & Ha & _).
    exec; [done |]. intros [= <-]. unfold logged. cbn [archives].
    rewrite Ha, lookup_insert_eq. eauto.
  - revert Hdest. unfold build, then_. cbv zeta.
    destruct (stages_1_6 env _ _ _) as [[[]|e|e] w2]; [| done..].
    destruct (makeZip env _ _ w2) as [[[]|e|e] w3]; [| done..].
    exec; [done |]. intros Heq. simplify_eq. unfold logged. cbn [dirs].
    rewrite elem_of_difference, elem_of_singleton. tauto.
Qed.

Lemma buildAndUploadDir_resolved_witness :
  upload_out demo (Js.or_default None (BUILD_PATH demo)) (Js.or_default None ".")
    = inr JUndefined ∧
  last (calls (buildAndUploadDir demo None None world0).2)
    = Some (Upload (Js.or_default None (BUILD_PATH demo)) (Js.or_default None ".")) ∧
  is_Some (archives (buildAndUploadDir demo None None world0).2
             !! (Js.or_default None "." +:+ "/" +:+ Js.or_default None (BUILD_PATH demo))) ∧
  (tmpDirOf demo ∉ dirs (buildAndUploadDir demo None None world0).2).
Proof.
  apply (buildAndUploadDir_resolved demo None None world0
           (buildAndUploadDir demo None None world0).2 JUndefined).
  by vm_compute.
Defined.
